(** * Repeated-trial test harness (test-harness.js): a shallow embedding

    The harness drives a browser tab through click / fill / eval steps many
    times, counts passes and failures in a global [results] object and prints
    a failure rate.  The embedding follows the source function by function:

    - [JS]       the JavaScript primitives the harness relies on
                 ([parseInt], template-literal number printing,
                 [String.prototype.replace] with the regular expression of
                 line 252, binary64 arithmetic and [toFixed(1)]);
    - [Harness]  the program itself, written in a state-and-exception monad
                 over the browser, the global [results] and a log of the
                 automation-client calls;
    - the vocabulary of the properties, clients to run the harness against,
      and the theorems, one group per property of the specification. *)

From Stdlib Require Import ZArith List String Ascii Bool Lia PeanoNat.
From Stdlib Require Import SpecFloat Decimal DecimalNat DecimalString.
From Stdlib Require Import Sorted.
Import ListNotations.

Local Open Scope string_scope.

(* ================================================================== *)
(** * JavaScript primitives *)
(* ================================================================== *)

Module JS.

(** ** Strings

    A JavaScript string is held as the bytes of its UTF-8 encoding, as the
    command line delivers it. *)

(** [String.prototype.startsWith]. *)
Definition startsWith (s p : string) : bool := String.prefix p s.

(** Template literal [`${n}`] for a non-negative integer Number below 1e21:
    its decimal digits. *)
Definition show_nat (n : nat) : string :=
  NilEmpty.string_of_uint (Nat.to_uint n).

Definition show_Z (z : Z) : string :=
  match z with
  | Z0 => "0"
  | Zpos p => NilEmpty.string_of_uint (Pos.to_uint p)
  | Zneg p => "-" ++ NilEmpty.string_of_uint (Pos.to_uint p)
  end.

(** ** Numbers: IEEE 754 binary64 *)

Definition prec : Z := 53.
Definition emax : Z := 1024.

Definition Number := spec_float.

(** The Number holding a count.  Counts are produced by [++] from 0, which
    is exact below 2^53. *)
Definition ofNat (n : nat) : Number :=
  binary_normalize prec emax (Z.of_nat n) 0 false.

Definition add (x y : Number) : Number := SFadd prec emax x y.
Definition div (x y : Number) : Number := SFdiv prec emax x y.
Definition mul (x y : Number) : Number := SFmul prec emax x y.

(** ** [parseInt(string)] with no radix argument

    The result is a Number; [None] stands for NaN and [Some z] for the
    Number whose value is the integer [z] (-0 is identified with 0: both are
    falsy). *)

(** White space and line terminators within ASCII. *)
Definition isWhiteSpace (c : ascii) : bool :=
  let n := nat_of_ascii c in
  (((9 <=? n) && (n <=? 13)) || (n =? 32))%nat.

(** White space and line terminators beyond ASCII, by their UTF-8 bytes:
    U+00A0 (194 160); U+1680 (225 154 128); U+2000 to U+200A, U+2028,
    U+2029 and U+202F (226 128 and 128 to 138, 168, 169, 175); U+205F
    (226 129 159); U+3000 (227 128 128); U+FEFF (239 187 191). *)
Definition isWhiteSpace2 (a b : nat) : bool :=
  ((a =? 194) && (b =? 160))%nat.

Definition isWhiteSpace3 (a b c : nat) : bool :=
  (((a =? 225) && (b =? 154) && (c =? 128))
   || ((a =? 226) && (b =? 128)
       && (((128 <=? c) && (c <=? 138)) || (c =? 168) || (c =? 169) || (c =? 175)))
   || ((a =? 226) && (b =? 129) && (c =? 159))
   || ((a =? 227) && (b =? 128) && (c =? 128))
   || ((a =? 239) && (b =? 187) && (c =? 191)))%nat.

Fixpoint trimStart (s : string) : string :=
  match s with
  | EmptyString => s
  | String a r =>
      if isWhiteSpace a then trimStart r
      else if (nat_of_ascii a <? 128)%nat then s
      else
        match r with
        | EmptyString => s
        | String b r2 =>
            if isWhiteSpace2 (nat_of_ascii a) (nat_of_ascii b) then trimStart r2
            else
              match r2 with
              | EmptyString => s
              | String c r3 =>
                  if isWhiteSpace3 (nat_of_ascii a) (nat_of_ascii b)
                                   (nat_of_ascii c)
                  then trimStart r3
                  else s
              end
        end
  end.

(** The Number for the integer read: the nearest binary64, ties to even.
    It is the integer itself up to 2^53.  An integer beyond the range of
    binary64 reads as Infinity; it is kept as it is, being, like Infinity,
    above every index the loop of [main] can reach. *)
Definition roundToNumber (z : Z) : Z :=
  match binary_normalize prec emax z 0 false with
  | S754_finite s m e =>
      if s then (- Z.shiftl (Zpos m) e)%Z else Z.shiftl (Zpos m) e
  | S754_zero _ => 0%Z
  | _ => z
  end.

Definition digitValue (c : ascii) : option Z :=
  let n := nat_of_ascii c in
  if ((48 <=? n) && (n <=? 57))%nat then Some (Z.of_nat (n - 48))
  else if ((97 <=? n) && (n <=? 122))%nat then Some (Z.of_nat (n - 87))
  else if ((65 <=? n) && (n <=? 90))%nat then Some (Z.of_nat (n - 55))
  else None.

(** The longest prefix of [s] made of radix-[R] digits, read as an integer;
    [acc] is the value read so far ([None]: no digit yet). *)
Fixpoint readDigits (R : Z) (s : string) (acc : option Z) : option Z :=
  match s with
  | EmptyString => acc
  | String c r =>
      match digitValue c with
      | Some d =>
          if (d <? R)%Z
          then readDigits R r (Some (match acc with
                                     | Some a => a * R + d
                                     | None => d
                                     end)%Z)
          else acc
      | None => acc
      end
  end.

Definition parseInt (input : string) : option Z :=
  let str := trimStart input in
  let '(sign, str) :=
    match str with
    | String "-"%char r => ((-1)%Z, r)
    | String "+"%char r => (1%Z, r)
    | _ => (1%Z, str)
    end in
  let '(R, str) :=
    match str with
    | String "0"%char (String "x"%char r) => (16%Z, r)
    | String "0"%char (String "X"%char r) => (16%Z, r)
    | _ => (10%Z, str)
    end in
  option_map (fun mathInt => roundToNumber (sign * mathInt))
             (readDigits R str None).

(** [x || d] for a Number [x]: NaN and 0 are falsy. *)
Definition num_or (x : option Z) (d : Z) : Z :=
  match x with
  | Some 0%Z | None => d
  | Some z => z
  end.

(** [s || d] for a possibly undefined string: undefined and the empty
    string are falsy. *)
Definition str_or (x : option string) (d : string) : string :=
  match x with
  | Some EmptyString | None => d
  | Some s => s
  end.

(** ** [s.replace(/\/[^/]*$/, '')]

    The regular expression matches at a position holding '/' whose
    remainder, up to the end of the input, holds no '/'.  [replace] with a
    non-global expression rewrites the leftmost match only. *)

Definition isSlash (c : ascii) : bool := Ascii.eqb c "/".

(** [[^/]*$] matches the whole of [s]. *)
Fixpoint noSlash (s : string) : bool :=
  match s with
  | EmptyString => true
  | String c r => negb (isSlash c) && noSlash r
  end.

Fixpoint replaceLastSegment (s : string) : string :=
  match s with
  | EmptyString => EmptyString
  | String c r =>
      if isSlash c && noSlash r then EmptyString
      else String c (replaceLastSegment r)
  end.

(** ** [Number.prototype.toFixed(1)]

    Following ECMA-262: a non-finite Number prints as [Number::toString]
    does; otherwise, for the exact real value x of the Number, the integer n
    with n / 10 - x closest to zero (the larger n on a tie) is printed with a
    point before its last digit.  For x >= 1e21 the algorithm hands over to
    [Number::toString], which is not modelled: [None]. *)

(** n for x = m * 2^e, x > 0. *)
Definition nearestTenth (m : positive) (e : Z) : Z :=
  match e with
  | Zneg k => (2 * 10 * Zpos m + 2 ^ Zpos k) / (2 * 2 ^ Zpos k)
  | _ => 10 * Zpos m * 2 ^ e
  end%Z.

Definition atLeast1e21 (m : positive) (e : Z) : bool :=
  match e with
  | Zneg k => (10 ^ 21 * 2 ^ Zpos k <=? Zpos m)%Z
  | _ => (10 ^ 21 <=? Zpos m * 2 ^ e)%Z
  end.

(** Steps 10-11 of toFixed with f = 1: pad to two digits, then split. *)
Definition pointBeforeLast (digits : string) : string :=
  let m := if (String.length digits <=? 1)%nat then "0" ++ digits else digits in
  let k := String.length m in
  substring 0 (k - 1) m ++ "." ++ substring (k - 1) 1 m.

Definition toFixed1 (x : Number) : option string :=
  match x with
  | S754_nan => Some "NaN"
  | S754_infinity s => Some (if s then "-Infinity" else "Infinity")
  | S754_zero _ => Some "0.0"
  | S754_finite s m e =>
      if atLeast1e21 m e then None
      else Some ((if s then "-" else "")
                   ++ pointBeforeLast (show_Z (nearestTenth m e)))
  end.

(** ** [JSON.stringify] of a string

    The string between double quotes, with the quote, the backslash and the
    control characters escaped. *)

Definition dquote : string := String (ascii_of_nat 34) EmptyString.
Definition backslash : string := String (ascii_of_nat 92) EmptyString.

Definition hexDigit (n : nat) : string :=
  String (ascii_of_nat (if (n <? 10)%nat then 48 + n else 87 + n)) EmptyString.

Definition escapeChar (c : ascii) : string :=
  let n := nat_of_ascii c in
  if (n =? 34)%nat then backslash ++ dquote
  else if (n =? 92)%nat then backslash ++ backslash
  else if (n =? 8)%nat then backslash ++ "b"
  else if (n =? 9)%nat then backslash ++ "t"
  else if (n =? 10)%nat then backslash ++ "n"
  else if (n =? 12)%nat then backslash ++ "f"
  else if (n =? 13)%nat then backslash ++ "r"
  else if (n <? 32)%nat
       then backslash ++ "u00" ++ hexDigit (n / 16) ++ hexDigit (n mod 16)
  else String c EmptyString.

Fixpoint escapeString (s : string) : string :=
  match s with
  | EmptyString => EmptyString
  | String c r => escapeChar c ++ escapeString r
  end.

Definition JSON_stringify (s : string) : string :=
  dquote ++ escapeString s ++ dquote.

End JS.

(* ================================================================== *)
(** * The harness *)
(* ================================================================== *)

Module Harness.

Import JS.

(** ** Data *)

(** A thrown value.  The client throws [Error] objects, of which the harness
    reads only [e.message]. *)
Record Error := { message : string }.

(** The tab handle returned by [initializeSession]. *)
Definition TabIndex := nat.

(** The value an evaluation in the page returns.  [testType] looks at three
    things of it: whether it is truthy, whether its [length] property is
    greater than 0, and its text inside a template literal.  A string is
    given as such; any other value (undefined, null, a boolean, a number, an
    array, an object) is given by these three observations. *)
Inductive Value :=
| VString (s : string)
| VOther (truthy lengthPositive : bool) (shown : string).

(** [undefined], and the array [['a']]. *)
Definition VUndefined : Value := VOther false false "undefined".
Definition VArrayOfA : Value := VOther true true "a".

(** [value] in a boolean position. *)
Definition truthy (v : Value) : bool :=
  match v with
  | VString s => negb (String.eqb s EmptyString)
  | VOther t _ _ => t
  end.

(** [value.length > 0], read on a truthy value only. *)
Definition lengthPositive (v : Value) : bool :=
  match v with
  | VString s => (0 <? String.length s)%nat
  | VOther _ l _ => l
  end.

(** [`${value}`] *)
Definition display (v : Value) : string :=
  match v with
  | VString s => s
  | VOther _ _ shown => shown
  end.

(** The objects the test functions return:
    [{ success: true }], [{ success: true, value }] and
    [{ success: false, error }]. *)
Inductive Outcome :=
| Success (value : option Value)
| Failure (error : string).

Definition success (o : Outcome) : bool :=
  match o with
  | Success _ => true
  | Failure _ => false
  end.

(** [{ name, ...result }] *)
Record NamedResult := { name : string; result : Outcome }.

(** An entry of [results.errors]. *)
Record ErrorRecord := { iteration : nat; test : string; error : string }.

(** The global [results] object (lines 28-32). *)
Record Results := { passed : nat; failed : nat; errors : list ErrorRecord }.

Definition results0 : Results := {| passed := 0; failed := 0; errors := [] |}.

(** The calls made to the automation client, with their arguments. *)
Inductive Call :=
| CInitializeSession
| CNavigate (tab : TabIndex) (url : string)
| CClick (tab : TabIndex) (selector : string)
| CFill (tab : TabIndex) (text selector : string)
| CEval (tab : TabIndex) (script : string).

(** ** The automation client

    chrome-ws-lib.js is an external collaborator: each of its calls either
    throws or returns, and moves the browser to a new state.  [elapse] is
    what the browser does while the harness sleeps.  [eval] returns the
    value of the script, whatever kind of value that is. *)
Record ChromeWs (W : Type) := {
  initializeSession : W -> (Error + TabIndex) * W;
  navigate : TabIndex -> string -> W -> (Error + unit) * W;
  click : TabIndex -> string -> W -> (Error + unit) * W;
  fill : TabIndex -> string -> string -> W -> (Error + unit) * W;
  eval : TabIndex -> string -> W -> (Error + Value) * W;
  elapse : nat -> W -> W
}.

Arguments initializeSession {W}.
Arguments navigate {W}.
Arguments click {W}.
Arguments fill {W}.
Arguments eval {W}.
Arguments elapse {W}.

(** ** Program state and the monad of awaited steps

    The state holds the browser, the global [results], and the list of the
    client calls made so far, oldest first.  The list is the model's record
    of what the harness asked of the client; the program does not read it. *)

Record State (W : Type) := {
  browser : W;
  results : Results;
  calls : list Call
}.

Arguments browser {W}.
Arguments results {W}.
Arguments calls {W}.
Arguments Build_State {W}.

Definition initial {W} (w : W) : State W :=
  {| browser := w; results := results0; calls := [] |}.

(** A step from a state: it throws ([inl]) or returns ([inr]). *)
Definition M (W A : Type) : Type := State W -> (Error + A) * State W.

Definition ret {W A} (a : A) : M W A := fun s => (inr a, s).

Definition bind {W A B} (m : M W A) (k : A -> M W B) : M W B :=
  fun s =>
    match m s with
    | (inl e, s') => (inl e, s')
    | (inr a, s') => k a s'
    end.

(** [try { body } catch (e) { handler }] *)
Definition try_catch {W A} (body : M W A) (handler : Error -> M W A) : M W A :=
  fun s =>
    match body s with
    | (inl e, s') => handler e s'
    | (inr a, s') => (inr a, s')
    end.

Declare Scope harness_scope.
Delimit Scope harness_scope with harness.

Notation "x <- m ;; k" := (bind m (fun x => k))
  (at level 61, m at next level, right associativity) : harness_scope.
Notation "m ;; k" := (bind m (fun _ => k))
  (at level 61, right associativity) : harness_scope.

Local Open Scope harness_scope.

Section Program.

Variable W : Type.
Variable chromeWs : ChromeWs W.

(** [path.join(__dirname, 'test-react-inputs.html')] *)
Variable fixturePath : string.

(** A client call: logged, then answered by the client. *)
Definition call {A} (c : Call) (f : W -> (Error + A) * W) : M W A :=
  fun s =>
    let '(r, w) := f (browser s) in
    (r, {| browser := w; results := results s; calls := (calls s ++ [c])%list |}).

(** [await sleep(ms)] (lines 47-49) *)
Definition sleep (ms : nat) : M W unit :=
  fun s =>
    (inr tt, {| browser := elapse chromeWs ms (browser s);
                results := results s; calls := calls s |}).

(** Writes to the global [results]. *)
Definition modify_results (f : Results -> Results) : M W unit :=
  fun s =>
    (inr tt, {| browser := browser s; results := f (results s);
                calls := calls s |}).

(** ** Test steps (lines 54-111) *)

Definition testClick (tabIndex : TabIndex) (selector : string) : M W Outcome :=
  try_catch
    (call (CClick tabIndex selector) (click chromeWs tabIndex selector) ;;
     sleep 50 ;;
     ret (Success None))
    (fun e => ret (Failure (message e))).

Definition readBackScript (selector : string) : string :=
  "document.querySelector(" ++ JSON_stringify selector ++ ")?.value || ''".

(** [value && value.length > 0] *)
Definition isSet (value : Value) : bool :=
  truthy value && lengthPositive value.

Definition testType (tabIndex : TabIndex) (selector text : string) : M W Outcome :=
  try_catch
    (call (CFill tabIndex text selector) (fill chromeWs tabIndex text selector) ;;
     sleep 50 ;;
     value <- call (CEval tabIndex (readBackScript selector))
                   (eval chromeWs tabIndex (readBackScript selector)) ;;
     if isSet value then ret (Success (Some value))
     else ret (Failure ("Value not set. Expected text, got: "
                          ++ dquote ++ display value ++ dquote)))
    (fun e => ret (Failure (message e))).

Definition testTypeAndEnter (tabIndex : TabIndex) (selector text : string)
  : M W Outcome :=
  try_catch
    (call (CFill tabIndex (text ++ "\n") selector)
          (fill chromeWs tabIndex (text ++ "\n") selector) ;;
     sleep 100 ;;
     ret (Success None))
    (fun e => ret (Failure (message e))).

Definition testXPathClick (tabIndex : TabIndex) (xpath : string) : M W Outcome :=
  try_catch
    (call (CClick tabIndex xpath) (click chromeWs tabIndex xpath) ;;
     sleep 50 ;;
     ret (Success None))
    (fun e => ret (Failure (message e))).

(** ** Clearing the test page (lines 116-123): no try/catch here *)

Definition clearScript : string :=
  "
    document.querySelectorAll('input, textarea').forEach(el => {
      el.value = '';
      el.dispatchEvent(new Event('input', { bubbles: true }));
    });
  ".

Definition clearTestPage (tabIndex : TabIndex) : M W unit :=
  call (CEval tabIndex clearScript) (eval chromeWs tabIndex clearScript) ;;
  ret tt.

(** ** The fixed-page suite (lines 128-160) *)

(** The closures [() => testClick(..)] and [() => testType(..)] of the
    [tests] array, by what they call. *)
Inductive Action :=
| DoClick (selector : string)
| DoType (selector text : string).

Record Test := { test_name : string; fn : Action }.

Definition tests (iteration : nat) : list Test :=
  [ {| test_name := "Click button"; fn := DoClick "#test-button" |};
    {| test_name := "Type in controlled input";
       fn := DoType "#controlled-input" ("test" ++ show_nat iteration) |};
    {| test_name := "Type in uncontrolled input";
       fn := DoType "#uncontrolled-input" ("test" ++ show_nat iteration) |};
    {| test_name := "Type in validated input";
       fn := DoType "#validated-input" "abc" |};
    {| test_name := "Type in nested input";
       fn := DoType "#nested-input" ("test" ++ show_nat iteration) |};
    {| test_name := "Type in transform input";
       fn := DoType "#transform-input" "hello" |};
    {| test_name := "Type in debounced input";
       fn := DoType "#debounced-input" ("test" ++ show_nat iteration) |};
    {| test_name := "Type in email input";
       fn := DoType "#email-input" "test@example.com" |};
    {| test_name := "Type in textarea";
       fn := DoType "#controlled-textarea" "line1\nline2" |} ].

Definition run (tabIndex : TabIndex) (a : Action) : M W Outcome :=
  match a with
  | DoClick selector => testClick tabIndex selector
  | DoType selector text => testType tabIndex selector text
  end.

(** Lines 147-156: the bookkeeping after one step. *)
Definition recordStep (iteration : nat) (name : string) (result : Outcome)
  (r : Results) : Results :=
  match result with
  | Failure err =>
      {| passed := passed r;
         failed := S (failed r);
         errors := (errors r ++ [ {| iteration := iteration; test := name;
                                     error := err |} ])%list |}
  | Success _ =>
      {| passed := S (passed r); failed := failed r; errors := errors r |}
  end.

(** The [for (const test of tests)] loop. *)
Fixpoint forEachTest (tabIndex : TabIndex) (iteration : nat) (ts : list Test)
  (iterationResults : list NamedResult) : M W (list NamedResult) :=
  match ts with
  | [] => ret iterationResults
  | t :: rest =>
      result <- run tabIndex (fn t) ;;
      modify_results (recordStep iteration (test_name t) result) ;;
      forEachTest tabIndex iteration rest
        (iterationResults ++ [ {| name := test_name t; result := result |} ])%list
  end.

Definition runIteration (tabIndex : TabIndex) (iteration : nat)
  : M W (list NamedResult) :=
  forEachTest tabIndex iteration (tests iteration) [].

(** ** The live-application suite (lines 165-206) *)

Definition xpathNewOrganization : string :=
  "//a[text()='New Organization'] | //button[text()='New Organization']".

(** The selector [form input[type=.text.]], the dots standing for the
    double quotes of the source. *)
Definition formTextInput : string :=
  "form input[type=" ++ dquote ++ "text" ++ dquote ++ "]".

Definition ok (n : string) : NamedResult :=
  {| name := n; result := Success None |}.

Definition ko (n : string) (e : Error) : NamedResult :=
  {| name := n; result := Failure (message e) |}.

(** A wrapped step that pushes its outcome and goes on either way. *)
Definition liveStep (n : string) (body : M W unit) (pause : nat)
  (tests : list NamedResult) : M W (list NamedResult) :=
  try_catch
    (body ;; sleep pause ;; ret (tests ++ [ok n])%list)
    (fun e => ret (tests ++ [ko n e])%list).

Definition runLiveAppTests (tabIndex : TabIndex) (baseUrl : string)
  (iteration : nat) : M W (list NamedResult) :=
  let tests := [] in
  (* [inl]: the [return tests] of the catch block at line 175 *)
  nav <- try_catch
           (call (CNavigate tabIndex (baseUrl ++ "/settings"))
                 (navigate chromeWs tabIndex (baseUrl ++ "/settings")) ;;
            sleep 500 ;;
            ret (inr (tests ++ [ok "Navigate to settings"])%list))
           (fun e => ret (inl (tests ++ [ko "Navigate to settings" e])%list)) ;;
  match nav with
  | inl tests => ret tests
  | inr tests =>
      tests <- liveStep "Click New Organization (XPath)"
                 (call (CClick tabIndex xpathNewOrganization)
                       (click chromeWs tabIndex xpathNewOrganization))
                 200 tests ;;
      tests <- liveStep "Type org name"
                 (call (CFill tabIndex ("TestOrg" ++ show_nat iteration)
                              formTextInput)
                       (fill chromeWs tabIndex ("TestOrg" ++ show_nat iteration)
                             formTextInput))
                 100 tests ;;
      tests <- liveStep "Click Cancel"
                 (call (CClick tabIndex "button[type='button']")
                       (click chromeWs tabIndex "button[type='button']"))
                 100 tests ;;
      ret tests
  end.

(** ** The runner (lines 211-318) *)

Definition DEFAULT_ITERATIONS : Z := 50.
Definition DEFAULT_TEST_URL : string := "file://" ++ fixturePath.

(** [ToString] of [args[0]], which [parseInt] applies to its argument. *)
Definition toString (x : option string) : string :=
  match x with
  | Some s => s
  | None => "undefined"
  end.

(** Line 213 *)
Definition iterationsOf (args : list string) : Z :=
  num_or (parseInt (toString (nth_error args 0))) DEFAULT_ITERATIONS.

(** Line 214 *)
Definition testUrlOf (args : list string) : string :=
  str_or (nth_error args 1) DEFAULT_TEST_URL.

(** Line 215 *)
Definition isLiveAppOf (testUrl : string) : bool :=
  startsWith testUrl "http://localhost".

(** Lines 254-258: the bookkeeping for one live-application outcome. *)
Definition recordLive (i : nat) (r : NamedResult) (res : Results) : Results :=
  match result r with
  | Success _ =>
      {| passed := S (passed res); failed := failed res;
         errors := errors res |}
  | Failure err =>
      {| passed := passed res;
         failed := S (failed res);
         errors := (errors res ++ [ {| iteration := i; test := name r;
                                       error := err |} ])%list |}
  end.

(** [for (const r of iterResults)] *)
Fixpoint forEachResult (i : nat) (iterResults : list NamedResult) : M W unit :=
  match iterResults with
  | [] => ret tt
  | r :: rest => modify_results (recordLive i r) ;; forEachResult i rest
  end.

(** The body of the iteration loop (lines 251-269). *)
Definition iterationBody (isLiveApp : bool) (tabIndex : TabIndex)
  (testUrl : string) (i : nat) : M W unit :=
  (if isLiveApp
   then iterResults <- runLiveAppTests tabIndex (replaceLastSegment testUrl) i ;;
        forEachResult i iterResults
   else clearTestPage tabIndex ;;
        sleep 50 ;;
        runIteration tabIndex i ;;
        ret tt) ;;
  sleep 100.

(** [for (let i = ..; i <= iterations; i++)], with [n] passes left. *)
Fixpoint iterate (isLiveApp : bool) (tabIndex : TabIndex) (testUrl : string)
  (n : nat) (i : nat) : M W unit :=
  match n with
  | O => ret tt
  | S n' =>
      iterationBody isLiveApp tabIndex testUrl i ;;
      iterate isLiveApp tabIndex testUrl n' (S i)
  end.

(** Lines 248-270: [i] runs from 1 to [iterations]; no pass when
    [iterations < 1]. *)
Definition runIterations (isLiveApp : bool) (tabIndex : TabIndex)
  (testUrl : string) (iterations : Z) : M W unit :=
  iterate isLiveApp tabIndex testUrl (Z.to_nat iterations) 1.

(** Line 308: [((failed / (passed + failed)) * 100).toFixed(1)] *)
Definition failRateValue (r : Results) : Number :=
  mul (div (ofNat (failed r)) (add (ofNat (passed r)) (ofNat (failed r))))
      (ofNat 100).

Definition failRate (r : Results) : option string :=
  toFixed1 (failRateValue r).

(** How the process ends. *)
Inductive Termination :=
| ConnectFailed (e : Error)   (* lines 229-233: exit code 1 *)
| LoadFailed (e : Error)      (* lines 240-243: exit code 1 *)
| FatalError (e : Error)      (* lines 314-318: exit code 1 *)
| Reported (failRate : option string) (code : Z).   (* lines 308-311 *)

Definition exitCode (t : Termination) : Z :=
  match t with
  | Reported _ code => code
  | _ => 1%Z
  end.

(** [main] under its top-level handler, [main().catch(..)].  The banner, the
    progress line and the grouped failure listing write to the console only
    and are left out; the failure-rate line and the exit code are kept. *)
Definition main (args : list string) (s0 : State W) : Termination * State W :=
  let iterations := iterationsOf args in
  let testUrl := testUrlOf args in
  let isLiveApp := isLiveAppOf testUrl in
  match call CInitializeSession (initializeSession chromeWs) s0 with
  | (inl e, s1) => (ConnectFailed e, s1)
  | (inr tabIndex, s1) =>
      match (call (CNavigate tabIndex testUrl)
                  (navigate chromeWs tabIndex testUrl) ;;
             sleep 1000) s1 with
      | (inl e, s2) => (LoadFailed e, s2)
      | (inr _, s2) =>
          match runIterations isLiveApp tabIndex testUrl iterations s2 with
          | (inl e, s3) => (FatalError e, s3)
          | (inr _, s3) =>
              (Reported (failRate (results s3))
                        (if (0 <? failed (results s3))%nat then 1%Z else 0%Z),
               s3)
          end
      end
  end.

End Program.

Arguments sleep {W}.
Arguments testClick {W}.
Arguments testType {W}.
Arguments testTypeAndEnter {W}.
Arguments testXPathClick {W}.
Arguments clearTestPage {W}.
Arguments run {W}.
Arguments forEachTest {W}.
Arguments runIteration {W}.
Arguments runLiveAppTests {W}.
Arguments forEachResult {W}.
Arguments iterationBody {W}.
Arguments iterate {W}.
Arguments runIterations {W}.
Arguments main {W}.

(** ** Clients to run the harness against *)

(** A client that answers by the number of calls made so far and the call
    itself: [inl msg] throws an error with that message, [inr v] returns
    (the string [v] is what [eval] yields; the tab handle is 0). *)
Definition scripted (answer : nat -> Call -> string + string) : ChromeWs nat :=
  let reply {A} (c : Call) (v : string -> A) (n : nat) : (Error + A) * nat :=
    (match answer n c with
     | inl msg => inl {| message := msg |}
     | inr x => inr (v x)
     end, S n) in
  {| initializeSession := reply CInitializeSession (fun _ => 0);
     navigate := fun t url => reply (CNavigate t url) (fun _ => tt);
     click := fun t sel => reply (CClick t sel) (fun _ => tt);
     fill := fun t text sel => reply (CFill t text sel) (fun _ => tt);
     eval := fun t script => reply (CEval t script) VString;
     elapse := fun _ n => n |}.

Definition isNavigate (c : Call) : bool :=
  match c with CNavigate _ _ => true | _ => false end.

Definition isEvalOf (script : string) (c : Call) : bool :=
  match c with CEval _ s => String.eqb s script | _ => false end.

(** Every call succeeds and every read-back yields text. *)
Definition steady : ChromeWs nat := scripted (fun _ _ => inr "text").

(** The read-back of the validated input always yields the empty string. *)
Definition blankValidated : ChromeWs nat :=
  scripted (fun _ c =>
              if isEvalOf (readBackScript "#validated-input") c
              then inr EmptyString else inr "text").

(** The navigation that is the client's call number [k] (from 0) fails. *)
Definition navigationDown (k : nat) : ChromeWs nat :=
  scripted (fun n c =>
              if isNavigate c && (n =? k)%nat then inl "net::ERR_CONNECTION_REFUSED"
              else inr "text").


(** Every read-back yields the array [['a']]. *)
Definition arrayReadBack : ChromeWs nat :=
  {| initializeSession := fun n => (inr 0, S n);
     navigate := fun _ _ n => (inr tt, S n);
     click := fun _ _ n => (inr tt, S n);
     fill := fun _ _ _ n => (inr tt, S n);
     eval := fun _ script n =>
               (inr (if String.eqb script clearScript then VUndefined
                     else VArrayOfA), S n);
     elapse := fun _ n => n |}.

(** Every click throws. *)
Definition clicksFail : ChromeWs nat :=
  scripted (fun _ c =>
              match c with
              | CClick _ _ => inl "Element not found"
              | _ => inr "text"
              end).

End Harness.

(* ================================================================== *)
(** * The failure listing of the report *)
(* ================================================================== *)

Module Report.

Import JS.
Import Harness.

(** ** [log] (lines 35-45) *)

Inductive Color := green | red | yellow | cyan.

Definition esc : string := String (ascii_of_nat 27) EmptyString.
Definition newline : string := String (ascii_of_nat 10) EmptyString.

(** [colors[color]] *)
Definition colorCode (color : Color) : string :=
  esc ++ match color with
         | green => "[32m"
         | red => "[31m"
         | yellow => "[33m"
         | cyan => "[36m"
         end.

Definition colorReset : string := esc ++ "[0m".

(** The line [log(color, msg)] hands to [console.log]. *)
Definition log (color : Color) (msg : string) : string :=
  colorCode color ++ msg ++ colorReset.

(** ** Grouping by test name (lines 287-292)

    [errorsByTest] is a plain object used as a map from test name to array.
    Its keys are the step names of the suites, none of which is an array
    index or a property of [Object.prototype]; for such keys a lookup finds
    exactly what was stored and [Object.entries] lists the keys in the order
    of their insertion, which the association list keeps. *)

(** [if (!errorsByTest[key]) errorsByTest[key] = [];
     errorsByTest[key].push(err)] *)
Fixpoint pushGrouped (err : ErrorRecord) (groups : list (string * list ErrorRecord))
  : list (string * list ErrorRecord) :=
  match groups with
  | [] => [(test err, [err])]
  | (key, group) :: rest =>
      if String.eqb key (test err)
      then (key, (group ++ [err])%list) :: rest
      else (key, group) :: pushGrouped err rest
  end.

(** [for (const err of results.errors)] *)
Definition errorsByTest (errs : list ErrorRecord) : list (string * list ErrorRecord) :=
  fold_left (fun groups err => pushGrouped err groups) errs [].

(** ** The listing (lines 294-303) *)

Definition headerLine (test : string) (group : list ErrorRecord) : string :=
  log red (newline ++ "  " ++ test ++ ": "
                   ++ show_nat (List.length group) ++ " failures").

Definition exampleLine (err : ErrorRecord) : string :=
  log yellow ("    - Iteration " ++ show_nat (iteration err) ++ ": " ++ error err).

Definition moreLine (group : list ErrorRecord) : string :=
  log yellow ("    ... and " ++ show_nat (List.length group - 3) ++ " more").

(** The lines logged for one entry of [Object.entries(errorsByTest)]. *)
Definition groupLines (test : string) (group : list ErrorRecord) : list string :=
  (headerLine test group
     :: map exampleLine (firstn 3 group)
     ++ (if (3 <? List.length group)%nat then [moreLine group] else []))%list.

Definition failureListing (errs : list ErrorRecord) : list string :=
  flat_map (fun entry => groupLines (fst entry) (snd entry)) (errorsByTest errs).

End Report.

Import JS.
Import Harness.
Import Report.

(* ================================================================== *)
(** * Vocabulary of the properties *)
(* ================================================================== *)

(** The client calls of a live-application pass whose navigation returns. *)
Definition liveCalls (tab : TabIndex) (base : string) (i : nat) : list Call :=
  [ CNavigate tab (base ++ "/settings");
    CClick tab xpathNewOrganization;
    CFill tab ("TestOrg" ++ show_nat i) formTextInput;
    CClick tab "button[type='button']" ].

(** The failures among a list of outcomes. *)
Definition failuresIn (rs : list NamedResult) : nat :=
  List.length (filter (fun x => negb (success (result x))) rs).

(** Recording a sequence of outcomes, each with its iteration index. *)
Definition recordAll (entries : list (nat * NamedResult)) (r : Results) : Results :=
  fold_left (fun r e => recordLive (fst e) (snd e) r) entries r.

(** Every action succeeds: no client call throws, and every read-back
    yields a value that passes the check of [testType] (for a string: a
    non-empty one). *)
Definition AllSucceed {W} (c : ChromeWs W) : Prop :=
  (forall w, exists tab, fst (initializeSession c w) = inr tab)
  /\ (forall t url w, fst (navigate c t url w) = inr tt)
  /\ (forall t sel w, fst (click c t sel w) = inr tt)
  /\ (forall t text sel w, fst (fill c t text sel w) = inr tt)
  /\ (forall t script w,
         exists v, fst (eval c t script w) = inr v
                   /\ forall sel, script = readBackScript sel -> isSet v = true).

Definition addPassed (n : nat) (r : Results) : Results :=
  {| passed := passed r + n; failed := failed r; errors := errors r |}.

Definition payloadOf (t : Test) : option string :=
  match fn t with
  | DoType _ text => Some text
  | DoClick _ => None
  end.

(** The text typed, in pass [i], by the step called [n]. *)
Definition payload (i : nat) (n : string) : option string :=
  match find (fun t => String.eqb (test_name t) n) (tests i) with
  | Some t => payloadOf t
  | None => None
  end.

Definition indexedSteps : list string :=
  [ "Type in controlled input"; "Type in uncontrolled input";
    "Type in nested input"; "Type in debounced input" ].

Definition constantSteps : list string :=
  [ "Type in validated input"; "Type in transform input";
    "Type in email input"; "Type in textarea" ].

(** The failures recorded under the test name [k], in recorded order. *)
Definition groupOf (k : string) (errs : list ErrorRecord) : list ErrorRecord :=
  filter (fun e => String.eqb (test e) k) errs.

(** The names of a list without repeats, each at its first occurrence. *)
Definition seeName (seen : list string) (k : string) : list string :=
  if existsb (String.eqb k) seen then seen else (seen ++ [k])%list.

Definition firstOccurrences (names : list string) : list string :=
  fold_left seeName names [].

(** The error records a pass with index [i] adds for its outcomes. *)
Definition newErrors (i : nat) (rs : list NamedResult) : list ErrorRecord :=
  flat_map (fun x => match result x with
                     | Failure err => [ {| iteration := i; test := name x;
                                           error := err |} ]
                     | Success _ => []
                     end) rs.

(** The step names of the two suites. *)
Definition fixedNames : list string := map test_name (tests 0).

Definition liveNames : list string :=
  [ "Navigate to settings"; "Click New Organization (XPath)";
    "Type org name"; "Click Cancel" ].

Definition suiteNames (live : bool) : list string :=
  if live then liveNames else fixedNames.

(** A client call the iteration phase may make on the tab [tab]: a click
    or a fill in either mode, a navigation in live-application mode only,
    a script evaluation in fixed-page mode only. *)
Definition phaseCall (live : bool) (tab : TabIndex) (c : Call) : bool :=
  match c with
  | CInitializeSession => false
  | CNavigate t _ => (t =? tab)%nat && live
  | CClick t _ => (t =? tab)%nat
  | CFill t _ _ => (t =? tab)%nat
  | CEval t _ => (t =? tab)%nat && negb live
  end.

(** Error records in order of iteration. *)
Definition byIteration (a b : ErrorRecord) : Prop := iteration a <= iteration b.

(** The number of records held by a list of groups. *)
Definition groupedTotal (groups : list (string * list ErrorRecord)) : nat :=
  list_sum (map (fun entry => List.length (snd entry)) groups).

(** From [s] to [s'] the call log grew by calls that all satisfy [P]. *)
Definition extends {W} (P : Call -> bool) (s s' : State W) : Prop :=
  exists new, calls s' = (calls s ++ new)%list /\ forallb P new = true.

(** Every run of the step [m] only adds calls that satisfy [P]. *)
Definition logsOnly {W A} (P : Call -> bool) (m : M W A) : Prop :=
  forall s, extends P s (snd (m s)).



(* ================================================================== *)
(** * Properties *)
(* ================================================================== *)

Local Open Scope harness_scope.

(** ** The model at work *)

Example parseInt_100 : JS.parseInt "100" = Some 100%Z.
Proof. reflexivity. Qed.

Example parseInt_garbage : JS.parseInt "abc" = None.
Proof. reflexivity. Qed.

Example parseInt_prefix : JS.parseInt "  -12px" = Some (-12)%Z.
Proof. reflexivity. Qed.

Example parseInt_hex : JS.parseInt "0x1F" = Some 31%Z.
Proof. reflexivity. Qed.

(** A no-break space (U+00A0) before the digits is white space too. *)
Example parseInt_nbsp :
  JS.parseInt (String (ascii_of_nat 194) (String (ascii_of_nat 160) "5"))
  = Some 5%Z.
Proof. reflexivity. Qed.

(** 2^53 + 1 is not a binary64: it reads as 2^53. *)
Example parseInt_rounds :
  JS.parseInt "9007199254740993" = Some 9007199254740992%Z.
Proof. vm_compute. reflexivity. Qed.

Example toFixed1_quarter :
  JS.toFixed1 (JS.div (JS.ofNat 1) (JS.ofNat 4)) = Some "0.3".
Proof. vm_compute. reflexivity. Qed.

Example toFixed1_small :
  JS.toFixed1 (JS.div (JS.ofNat 1) (JS.ofNat 100)) = Some "0.0".
Proof. vm_compute. reflexivity. Qed.

Example toFixed1_big :
  JS.toFixed1 (JS.mul (JS.ofNat 1234) (JS.ofNat 1)) = Some "1234.0".
Proof. vm_compute. reflexivity. Qed.

Example steady_three_iterations :
  let '(t, s) := main steady "/repo/test-react-inputs.html" ["3"] (initial 0) in
  t = Reported (Some "0.0") 0
  /\ passed (results s) = 27 /\ failed (results s) = 0.
Proof. vm_compute. repeat split. Qed.

(** The scenario of three iterations with one typing step whose read-back is
    always empty: 3 failures, 24 passes, 11.1 %. *)
Example blank_three_iterations :
  let '(t, s) := main blankValidated "/repo/test-react-inputs.html" ["3"] (initial 0) in
  t = Reported (Some "11.1") 1
  /\ passed (results s) = 24 /\ failed (results s) = 3
  /\ map test (errors (results s))
     = ["Type in validated input"; "Type in validated input";
        "Type in validated input"]
  /\ map iteration (errors (results s)) = [1; 2; 3].
Proof. vm_compute. repeat split. Qed.


(** ** Steps never throw *)

Ltac run_monad :=
  unfold try_catch, bind, call, sleep, modify_results, ret; simpl.

Section StepFacts.

Context {W : Type} (c : ChromeWs W).

Lemma isSet_nonempty (v : string) :
  isSet (VString v) = true <-> v <> EmptyString.
Proof.
  destruct v as [|a v]; simpl; split; intro H; try discriminate; try reflexivity.
  now elim H.
Qed.

Lemma testClick_returns tab sel (s : State W) :
  exists o s', testClick c tab sel s = (inr o, s') /\ results s' = results s.
Proof.
  unfold testClick; run_monad.
  destruct (click c tab sel (browser s)) as [[e|u] w]; simpl; eauto.
Qed.

Lemma testType_returns tab sel text (s : State W) :
  exists o s', testType c tab sel text s = (inr o, s') /\ results s' = results s.
Proof.
  unfold testType; run_monad.
  destruct (fill c tab text sel (browser s)) as [[e|u] w]; simpl; eauto.
  destruct (eval c tab (readBackScript sel) (elapse c 50 w)) as [[e|v] w'];
    simpl; eauto.
  destruct (isSet v); simpl; eauto.
Qed.

Lemma run_returns tab a (s : State W) :
  exists o s', run c tab a s = (inr o, s') /\ results s' = results s.
Proof.
  destruct a; simpl; [apply testClick_returns | apply testType_returns].
Qed.

End StepFacts.

(** ** The type-and-verify step *)

(** C9, as the code has it.  [testType] always returns an outcome, fixed by
    what the fill and the read-back do: the failure with the exception's
    message when the fill or the read-back throws, and otherwise a success
    carrying the value read back when that value is truthy and has a length
    greater than 0, or else the failure [Value not set. Expected text, got:]
    followed by the value between double quotes.  So the outcome is a
    success if and only if the fill returned, the read-back that follows it
    returned, and the value read back is truthy with a length greater than
    0; for a string value that is: if and only if it is non-empty.  An
    outcome that is not a success is a failure carrying a message. *)
Theorem testType_success_iff :
  forall (W : Type) (c : ChromeWs W) (tab : TabIndex) (sel text : string)
         (s : State W),
  exists o s',
    testType c tab sel text s = (inr o, s')
    /\ o = match fill c tab text sel (browser s) with
           | (inl e, _) => Failure (message e)
           | (inr _, w1) =>
               match eval c tab (readBackScript sel) (elapse c 50 w1) with
               | (inl e, _) => Failure (message e)
               | (inr v, _) =>
                   if truthy v && lengthPositive v
                   then Success (Some v)
                   else Failure ("Value not set. Expected text, got: "
                                   ++ dquote ++ display v ++ dquote)
               end
           end
    /\ (success o = true <->
        exists u w1 v w2,
          fill c tab text sel (browser s) = (inr u, w1)
          /\ eval c tab (readBackScript sel) (elapse c 50 w1) = (inr v, w2)
          /\ truthy v = true
          /\ lengthPositive v = true)
    /\ (success o = false <-> exists msg, o = Failure msg)
    /\ (forall str,
          truthy (VString str) && lengthPositive (VString str) = true
          <-> str <> EmptyString).
Proof.
  intros W c tab sel text s.
  unfold testType; run_monad.
  destruct (fill c tab text sel (browser s)) as [[e|u] w] eqn:Hfill; simpl.
  - do 2 eexists; split; [reflexivity|]; split; [reflexivity|].
    split; [|split; [|exact isSet_nonempty]]; split; simpl;
      try discriminate; eauto.
    intros (u & w1 & v & w2 & H & _); discriminate.
  - destruct (eval c tab (readBackScript sel) (elapse c 50 w)) as [[e|v] w']
      eqn:Heval; simpl.
    + do 2 eexists; split; [reflexivity|]; split; [reflexivity|].
      split; [|split; [|exact isSet_nonempty]]; split; simpl;
        try discriminate; eauto.
      intros (u' & w1 & v & w2 & H & H' & _).
      injection H as <- <-. rewrite Heval in H'. discriminate.
    + unfold isSet. destruct (truthy v && lengthPositive v) eqn:Hset; simpl.
      * do 2 eexists; split; [reflexivity|]; split; [reflexivity|].
        split; [|split; [|exact isSet_nonempty]]; split; simpl;
          try discriminate; try reflexivity.
        -- intros _. apply andb_true_iff in Hset as [Ht Hl].
           exists u, w, v, w'. repeat split; trivial.
        -- intros [msg H]; discriminate.
      * do 2 eexists; split; [reflexivity|]; split; [reflexivity|].
        split; [|split; [|exact isSet_nonempty]]; split; simpl;
          try discriminate; eauto.
        intros (u' & w1 & v' & w2 & H & H' & Ht & Hl).
        injection H as <- <-. rewrite Heval in H'. injection H' as <- <-.
        rewrite Ht, Hl in Hset. discriminate.
Qed.

(** A read-back that yields the array [['a']]: the step succeeds, and the
    value it carries is not a string. *)
Lemma testType_succeeds_on_array :
  fill arrayReadBack 0 "test1" "#controlled-input" (browser (initial 0))
  = (inr tt, 1)
  /\ eval arrayReadBack 0 (readBackScript "#controlled-input")
          (elapse arrayReadBack 50 1) = (inr (VOther true true "a"), 2)
  /\ fst (testType arrayReadBack 0 "#controlled-input" "test1" (initial 0))
     = inr (Success (Some (VOther true true "a")))
  /\ (forall str, VOther true true "a" <> VString str).
Proof. repeat split. discriminate. Qed.

(** ** The live-application suite *)

(** Case analysis on the next client call met in the goal. *)
Ltac next_call c :=
  match goal with
  | |- context [click c ?t ?x ?st] =>
      destruct (click c t x st) as [[?e|[]] ?w]; simpl
  | |- context [fill c ?t ?x ?y ?st] =>
      destruct (fill c t x y st) as [[?e|[]] ?w]; simpl
  | |- context [eval c ?t ?x ?st] =>
      destruct (eval c t x st) as [[?e|?v] ?w]; simpl
  end.

Lemma runLiveAppTests_navigation_fails {W} (c : ChromeWs W) tab base i
      (s : State W) e w :
  navigate c tab (base ++ "/settings") (browser s) = (inl e, w) ->
  runLiveAppTests c tab base i s
  = (inr [ko "Navigate to settings" e],
     {| browser := w; results := results s;
        calls := (calls s ++ [CNavigate tab (base ++ "/settings")])%list |}).
Proof.
  intros H. unfold runLiveAppTests; run_monad. rewrite H. reflexivity.
Qed.

Lemma runLiveAppTests_navigation_succeeds {W} (c : ChromeWs W) tab base i
      (s : State W) u w :
  navigate c tab (base ++ "/settings") (browser s) = (inr u, w) ->
  exists o2 o3 o4 s',
    runLiveAppTests c tab base i s
    = (inr [ ok "Navigate to settings";
             {| name := "Click New Organization (XPath)"; result := o2 |};
             {| name := "Type org name"; result := o3 |};
             {| name := "Click Cancel"; result := o4 |} ], s')
    /\ results s' = results s
    /\ calls s' = (calls s ++ liveCalls tab base i)%list.
Proof.
  intros H. unfold runLiveAppTests, liveStep, liveCalls; run_monad.
  rewrite H; simpl.
  repeat next_call c;
    do 4 eexists; (split; [reflexivity|]); simpl;
    rewrite <- ?app_assoc; simpl; split; reflexivity.
Qed.

Lemma forEachResult_spec {W} i rs (s : State W) :
  forEachResult i rs s
  = (inr tt, {| browser := browser s;
                results := fold_left (fun r x => recordLive i x r) rs (results s);
                calls := calls s |}).
Proof.
  revert s; induction rs as [|x rs IH]; intros s; simpl.
  - destruct s; reflexivity.
  - run_monad. rewrite IH. reflexivity.
Qed.

Lemma live_pass_navigation_fails {W} (c : ChromeWs W) tab url i (s : State W) e w :
  let base := replaceLastSegment url in
  navigate c tab (base ++ "/settings") (browser s) = (inl e, w) ->
  exists s1 s',
    runLiveAppTests c tab base i s
    = (inr [ {| name := "Navigate to settings";
                result := Failure (message e) |} ], s1)
    /\ iterationBody c true tab url i s = (inr tt, s')
    /\ calls s' = (calls s ++ [CNavigate tab (base ++ "/settings")])%list
    /\ passed (results s') = passed (results s)
    /\ failed (results s') = S (failed (results s))
    /\ errors (results s')
       = (errors (results s)
            ++ [ {| iteration := i; test := "Navigate to settings";
                    error := message e |} ])%list.
Proof.
  intros base H.
  pose proof (runLiveAppTests_navigation_fails c tab base i s e w H) as R.
  do 2 eexists; split; [exact R|].
  unfold iterationBody. unfold bind at 1. unfold bind at 1.
  fold base. rewrite R. rewrite forEachResult_spec. simpl.
  run_monad. repeat split; reflexivity.
Qed.

Lemma live_pass_navigation_succeeds {W} (c : ChromeWs W) tab url i (s : State W) u w :
  let base := replaceLastSegment url in
  navigate c tab (base ++ "/settings") (browser s) = (inr u, w) ->
  exists o2 o3 o4 s1 s',
    runLiveAppTests c tab base i s
    = (inr [ {| name := "Navigate to settings"; result := Success None |};
             {| name := "Click New Organization (XPath)"; result := o2 |};
             {| name := "Type org name"; result := o3 |};
             {| name := "Click Cancel"; result := o4 |} ], s1)
    /\ iterationBody c true tab url i s = (inr tt, s')
    /\ calls s' = (calls s ++ liveCalls tab base i)%list
    /\ passed (results s') + failed (results s')
       = passed (results s) + failed (results s) + 4.
Proof.
  intros base H.
  destruct (runLiveAppTests_navigation_succeeds c tab base i s u w H)
    as (o2 & o3 & o4 & s1 & R & Hres & Hcalls).
  exists o2, o3, o4, s1. eexists; split; [exact R|].
  unfold iterationBody. unfold bind at 1. unfold bind at 1.
  fold base. rewrite R. rewrite forEachResult_spec. simpl.
  run_monad. split; [reflexivity|]. split; [exact Hcalls|].
  rewrite Hres. destruct o2, o3, o4; simpl; lia.
Qed.

(** C5.  One pass of the live-application strategy.  When the navigation
    call throws, the suite returns the navigation failure alone, the
    navigation is the only client call made, and the pass adds one failure
    (and one error record) and no success to [results].  When the
    navigation call returns, the suite returns four outcomes, the
    navigation success first, all four client calls are made whatever the
    later outcomes are, and the pass adds four to [passed + failed]. *)
Theorem live_pass_outcomes :
  forall (W : Type) (c : ChromeWs W) (tab : TabIndex) (url : string) (i : nat)
         (s : State W),
    let base := replaceLastSegment url in
    (forall e w,
        navigate c tab (base ++ "/settings") (browser s) = (inl e, w) ->
        exists s1 s',
          runLiveAppTests c tab base i s
          = (inr [ {| name := "Navigate to settings";
                      result := Failure (message e) |} ], s1)
          /\ iterationBody c true tab url i s = (inr tt, s')
          /\ calls s' = (calls s ++ [CNavigate tab (base ++ "/settings")])%list
          /\ passed (results s') = passed (results s)
          /\ failed (results s') = S (failed (results s))
          /\ errors (results s')
             = (errors (results s)
                  ++ [ {| iteration := i; test := "Navigate to settings";
                          error := message e |} ])%list)
    /\ (forall u w,
        navigate c tab (base ++ "/settings") (browser s) = (inr u, w) ->
        exists o2 o3 o4 s1 s',
          runLiveAppTests c tab base i s
          = (inr [ {| name := "Navigate to settings"; result := Success None |};
                   {| name := "Click New Organization (XPath)"; result := o2 |};
                   {| name := "Type org name"; result := o3 |};
                   {| name := "Click Cancel"; result := o4 |} ], s1)
          /\ iterationBody c true tab url i s = (inr tt, s')
          /\ calls s' = (calls s ++ liveCalls tab base i)%list
          /\ passed (results s') + failed (results s')
             = passed (results s) + failed (results s) + 4).
Proof.
  intros W c tab url i s base; split.
  - intros e w H. exact (live_pass_navigation_fails c tab url i s e w H).
  - intros u w H. exact (live_pass_navigation_succeeds c tab url i s u w H).
Qed.

(** ** The counters of [results] *)

Lemma recordStep_recordLive i n o r :
  recordStep i n o r = recordLive i {| name := n; result := o |} r.
Proof. destruct o; reflexivity. Qed.

Lemma recordLive_counts i x r :
  let r' := recordLive i x r in
  passed r' + failed r' = S (passed r + failed r)
  /\ failed r' = failed r + failuresIn [x]
  /\ List.length (errors r') = List.length (errors r) + failuresIn [x].
Proof.
  unfold recordLive, failuresIn; simpl; destruct (result x); simpl;
    rewrite ?length_app; simpl; lia.
Qed.

Lemma recordAll_counts entries r :
  let r' := recordAll entries r in
  passed r' + failed r' = passed r + failed r + List.length entries
  /\ failed r' = failed r + failuresIn (map snd entries)
  /\ List.length (errors r') = List.length (errors r) + failuresIn (map snd entries).
Proof.
  revert r; induction entries as [|[i x] es IH]; intros r; simpl.
  - unfold failuresIn; simpl; lia.
  - specialize (IH (recordLive i x r)); simpl in IH.
    destruct IH as (IH1 & IH2 & IH3).
    destruct (recordLive_counts i x r) as (H1 & H2 & H3).
    unfold recordAll, failuresIn in *; simpl in *.
    remember (negb (success (result x))) as b eqn:Eb in *.
    destruct b; simpl in *; lia.
Qed.

Lemma fold_recordLive_recordAll i rs r :
  fold_left (fun r x => recordLive i x r) rs r
  = recordAll (map (fun x => (i, x)) rs) r.
Proof.
  revert r; induction rs as [|x rs IH]; intros r; simpl; [reflexivity|].
  rewrite IH. reflexivity.
Qed.

Lemma fold_recordLive_errors i rs r :
  errors (fold_left (fun r x => recordLive i x r) rs r)
  = (errors r ++ newErrors i rs)%list.
Proof.
  revert r; induction rs as [|x rs IH]; intros r; simpl.
  - now rewrite app_nil_r.
  - rewrite IH. unfold recordLive. destruct (result x); simpl;
      [reflexivity | now rewrite <- app_assoc].
Qed.


Section SuiteFacts.

Context {W : Type} (c : ChromeWs W).

(** The fixed-page loop returns one named outcome per test, in order, and
    leaves in [results] the bookkeeping of exactly those outcomes. *)
Lemma forEachTest_spec tab i ts acc (s : State W) :
  exists rs s',
    forEachTest c tab i ts acc s = (inr (acc ++ rs)%list, s')
    /\ map name rs = map test_name ts
    /\ results s' = fold_left (fun r x => recordLive i x r) rs (results s).
Proof.
  revert acc s; induction ts as [|t ts IH]; intros acc s; simpl.
  - exists [], s. rewrite app_nil_r. repeat split.
  - destruct (run_returns c tab (fn t) s) as (o & s1 & R & Hres).
    unfold bind at 1. rewrite R. unfold bind at 1, modify_results at 1.
    match goal with
    | |- context [forEachTest c tab i ts ?a ?st] =>
        destruct (IH a st) as (rs & s' & E & Hn & Hr)
    end.
    exists ({| name := test_name t; result := o |} :: rs), s'.
    rewrite E, <- app_assoc. simpl. repeat split.
    + now rewrite Hn.
    + rewrite Hr, Hres, recordStep_recordLive. reflexivity.
Qed.

Lemma runIteration_spec tab i (s : State W) :
  exists rs s',
    runIteration c tab i s = (inr rs, s')
    /\ map name rs = map test_name (tests i)
    /\ List.length rs = 9
    /\ results s' = fold_left (fun r x => recordLive i x r) rs (results s).
Proof.
  destruct (forEachTest_spec tab i (tests i) [] s) as (rs & s' & E & Hn & Hr).
  exists rs, s'. repeat split; trivial.
  apply (f_equal (@List.length _)) in Hn. rewrite !length_map in Hn.
  exact Hn.
Qed.

Lemma runLiveAppTests_returns tab base i (s : State W) :
  exists rs s',
    runLiveAppTests c tab base i s = (inr rs, s') /\ results s' = results s.
Proof.
  destruct (navigate c tab (base ++ "/settings") (browser s)) as [[e|u] w] eqn:H.
  - rewrite (runLiveAppTests_navigation_fails c tab base i s e w H).
    do 2 eexists; split; reflexivity.
  - destruct (runLiveAppTests_navigation_succeeds c tab base i s u w H)
      as (o2 & o3 & o4 & s' & R & Hres & _).
    rewrite R. eauto.
Qed.

(** One pass of the loop of [main], whether it returns or throws, leaves
    [results] as the bookkeeping of a list of outcomes of that pass. *)
Lemma iterationBody_records live tab url i (s : State W) :
  exists rs,
    results (snd (iterationBody c live tab url i s))
    = fold_left (fun r x => recordLive i x r) rs (results s).
Proof.
  unfold iterationBody. destruct live.
  - destruct (runLiveAppTests_returns tab (replaceLastSegment url) i s)
      as (rs & s1 & R & Hres).
    exists rs. unfold bind at 1. unfold bind at 1. rewrite R.
    rewrite forEachResult_spec. simpl. now rewrite Hres.
  - unfold bind at 1. unfold bind at 1. unfold clearTestPage.
    run_monad.
    destruct (eval c tab clearScript (browser s)) as [[e|v] w]; simpl.
    + exists []. reflexivity.
    + match goal with
      | |- context [runIteration c tab i ?st] =>
          destruct (runIteration_spec tab i st) as (rs & s' & R & _ & _ & Hr)
      end.
      rewrite R. simpl. exists rs. exact Hr.
Qed.

Lemma iterate_records live tab url n i (s : State W) :
  exists entries,
    results (snd (iterate c live tab url n i s)) = recordAll entries (results s).
Proof.
  revert i s; induction n as [|n IH]; intros i s; simpl.
  - exists []. reflexivity.
  - destruct (iterationBody_records live tab url i s) as (rs & Hrs).
    unfold bind.
    destruct (iterationBody c live tab url i s) as [[e|u] s1]; simpl in *.
    + exists (map (fun x => (i, x)) rs).
      now rewrite Hrs, fold_recordLive_recordAll.
    + destruct (IH (S i) s1) as (es & Hes).
      exists (map (fun x => (i, x)) rs ++ es)%list.
      rewrite Hes, Hrs, fold_recordLive_recordAll.
      unfold recordAll. now rewrite fold_left_app.
Qed.

(** Whatever the client does and however [main] ends, the final [results]
    are the bookkeeping, from the empty [results], of a list of outcomes. *)
Lemma main_records fixture args (w : W) :
  exists entries,
    results (snd (main c fixture args (initial w))) = recordAll entries results0.
Proof.
  unfold main. unfold call at 1. simpl.
  destruct (initializeSession c w) as [[e|tab] w1]; simpl.
  - exists []. reflexivity.
  - unfold bind, call, sleep. simpl.
    destruct (navigate c tab (testUrlOf fixture args) w1) as [[e|u] w2]; simpl.
    + exists []. reflexivity.
    + unfold runIterations.
      match goal with
      | |- context [iterate c ?l ?t ?u ?n ?i ?st] =>
          destruct (iterate_records l t u n i st) as (es & Hes);
          destruct (iterate c l t u n i st) as [[e|u'] s3]
      end; simpl in *; exists es; exact Hes.
Qed.

End SuiteFacts.


(** ** Runs in which every action succeeds *)

Lemma steady_AllSucceed : AllSucceed steady.
Proof.
  repeat split; simpl; eauto.
Qed.

Section AllSucceedFacts.

Context {W : Type} (c : ChromeWs W) (OK : AllSucceed c).

Lemma run_succeeds tab a (s : State W) :
  exists v s', run c tab a s = (inr (Success v), s') /\ results s' = results s.
Proof.
  destruct OK as (_ & _ & Hclick & Hfill & Heval).
  destruct a as [sel | sel text]; simpl.
  - unfold testClick; run_monad.
    specialize (Hclick tab sel (browser s)).
    destruct (click c tab sel (browser s)) as [r w]; simpl in *; subst r.
    simpl. eauto.
  - unfold testType; run_monad.
    specialize (Hfill tab text sel (browser s)).
    destruct (fill c tab text sel (browser s)) as [r w]; simpl in *; subst r.
    simpl.
    destruct (Heval tab (readBackScript sel) (elapse c 50 w)) as (v & Hv & Hne).
    destruct (eval c tab (readBackScript sel) (elapse c 50 w)) as [r w'];
      simpl in *; subst r. simpl.
    specialize (Hne sel eq_refl).
    rewrite Hne. simpl. eauto.
Qed.

Lemma forEachTest_all_pass tab i ts acc (s : State W) :
  exists rs s',
    forEachTest c tab i ts acc s = (inr rs, s')
    /\ results s' = addPassed (List.length ts) (results s).
Proof.
  revert acc s; induction ts as [|t ts IH]; intros acc s; simpl.
  - exists acc, s. split; [reflexivity|].
    unfold addPassed. destruct (results s); simpl. now rewrite Nat.add_0_r.
  - destruct (run_succeeds tab (fn t) s) as (v & s1 & R & Hres).
    unfold bind at 1. rewrite R. unfold bind at 1, modify_results at 1.
    match goal with
    | |- context [forEachTest c tab i ts ?a ?st] =>
        destruct (IH a st) as (rs & s' & E & Hr)
    end.
    exists rs, s'. split; [exact E|].
    rewrite Hr, Hres. unfold addPassed; simpl. f_equal. lia.
Qed.

Lemma iterationBody_all_pass tab url i (s : State W) :
  exists s',
    iterationBody c false tab url i s = (inr tt, s')
    /\ results s' = addPassed 9 (results s).
Proof.
  destruct OK as (_ & _ & _ & _ & Heval).
  unfold iterationBody. unfold bind at 1. unfold bind at 1.
  unfold clearTestPage. run_monad.
  destruct (Heval tab clearScript (browser s)) as (v & Hv & _).
  destruct (eval c tab clearScript (browser s)) as [r w]; simpl in *; subst r.
  simpl.
  match goal with
  | |- context [runIteration c tab i ?st] =>
      destruct (forEachTest_all_pass tab i (tests i) [] st) as (rs & s' & R & Hr);
      unfold runIteration; rewrite R
  end.
  simpl. eexists; split; [reflexivity|]. exact Hr.
Qed.

Lemma iterate_all_pass tab url n i (s : State W) :
  exists s',
    iterate c false tab url n i s = (inr tt, s')
    /\ results s' = addPassed (9 * n) (results s).
Proof.
  revert i s; induction n as [|n IH]; intros i s; simpl.
  - exists s. split; [reflexivity|].
    unfold addPassed. destruct (results s); simpl. now rewrite Nat.add_0_r.
  - destruct (iterationBody_all_pass tab url i s) as (s1 & R & H1).
    unfold bind. rewrite R.
    destruct (IH (S i) s1) as (s' & E & H').
    exists s'. split; [exact E|].
    rewrite H', H1. unfold addPassed; simpl. f_equal. lia.
Qed.

End AllSucceedFacts.

(** C7.  When every action succeeds, the fixed-page strategy run for N
    passes, N >= 0, returns normally and adds exactly 9 * N outcomes to
    [results], all of them successes; each pass returns one outcome per step,
    nine in all, under the names of the nine steps.  A run of [main] on a
    page that is not a live application then ends with
    9 * iterations outcomes, all passed, and exit code 0. *)
Theorem fixed_page_nine_per_pass :
  forall (W : Type) (c : ChromeWs W),
    AllSucceed c ->
    (forall tab url (N : nat) (s : State W),
        exists s',
          runIterations c false tab url (Z.of_nat N) s = (inr tt, s')
          /\ passed (results s') + failed (results s')
             = passed (results s) + failed (results s) + 9 * N
          /\ passed (results s') = passed (results s) + 9 * N
          /\ failed (results s') = failed (results s)
          /\ errors (results s') = errors (results s))
    /\ (forall tab i (s : State W),
          exists rs s',
            runIteration c tab i s = (inr rs, s')
            /\ List.length rs = 9
            /\ map name rs = map test_name (tests i))
    /\ (forall fixture args (w : W),
          isLiveAppOf (testUrlOf fixture args) = false ->
          exists rate s',
            main c fixture args (initial w) = (Reported rate 0, s')
            /\ passed (results s') = 9 * Z.to_nat (iterationsOf args)
            /\ failed (results s') = 0).
Proof.
  intros W c OK. split; [|split].
  - intros tab url N s. unfold runIterations. rewrite Nat2Z.id.
    destruct (iterate_all_pass c OK tab url N 1 s) as (s' & E & H).
    exists s'. split; [exact E|]. rewrite H. simpl. repeat split; lia.
  - intros tab i s.
    destruct (runIteration_spec c tab i s) as (rs & s' & R & Hn & Hl & _).
    exists rs, s'. auto.
  - intros fixture args w Hlive. unfold main. rewrite Hlive.
    pose proof OK as (Hinit & Hnav & _).
    unfold call at 1. simpl.
    destruct (Hinit w) as (tab & Ht).
    destruct (initializeSession c w) as [r w1]; simpl in *; subst r.
    unfold bind at 1. unfold call at 1. simpl.
    specialize (Hnav tab (testUrlOf fixture args) w1).
    destruct (navigate c tab (testUrlOf fixture args) w1) as [r w2];
      simpl in *; subst r. unfold sleep at 1. simpl.
    unfold runIterations.
    match goal with
    | |- context [iterate c false ?t ?u ?n ?i ?st] =>
        destruct (iterate_all_pass c OK t u n i st) as (s' & E & H)
    end.
    rewrite E. simpl. rewrite H. simpl.
    do 2 eexists. split; [reflexivity|]. simpl. rewrite H. simpl.
    split; reflexivity.
Qed.

(** Three passes against a client that always succeeds. *)
Lemma fixed_page_nine_per_pass_witness :
  AllSucceed steady
  /\ exists s',
      runIterations steady false 0 "file:///repo/test-react-inputs.html"
        (Z.of_nat 3) (initial 0) = (inr tt, s')
      /\ passed (results s') + failed (results s') = 0 + 0 + 9 * 3
      /\ passed (results s') = 0 + 9 * 3
      /\ failed (results s') = 0
      /\ errors (results s') = [].
Proof.
  split; [exact steady_AllSucceed|].
  exact (proj1 (fixed_page_nine_per_pass nat steady steady_AllSucceed)
           0 "file:///repo/test-react-inputs.html" 3 (initial 0)).
Defined.

(** ** The base URL of the live-application suite *)

Lemma noSlash_after_slash (p seg : string) :
  noSlash (p ++ String "/"%char seg) = false.
Proof.
  induction p as [|a p IH]; simpl; [reflexivity|].
  rewrite IH. apply andb_false_r.
Qed.

Lemma replaceLastSegment_app (prefix seg : string) :
  noSlash seg = true ->
  replaceLastSegment (prefix ++ "/" ++ seg) = prefix.
Proof.
  intros H. change ("/" ++ seg) with (String "/"%char seg).
  induction prefix as [|a p IH]; simpl.
  - now rewrite H.
  - rewrite noSlash_after_slash, andb_false_r. now rewrite IH.
Qed.

Lemma replaceLastSegment_no_match (s : string) :
  noSlash s = true -> replaceLastSegment s = s.
Proof.
  induction s as [|a s IH]; simpl; [reflexivity|].
  intros H. apply andb_true_iff in H as [Ha Hs].
  apply negb_true_iff in Ha. rewrite Ha. simpl. now rewrite IH.
Qed.

(** The first client call of a live-application pass. *)
Lemma live_pass_first_call {W} (c : ChromeWs W) tab url i (s : State W) :
  exists rest,
    calls (snd (iterationBody c true tab url i s))
    = (calls s
         ++ CNavigate tab (replaceLastSegment url ++ "/settings") :: rest)%list.
Proof.
  destruct (navigate c tab (replaceLastSegment url ++ "/settings") (browser s))
    as [[e|u] w] eqn:H.
  - destruct (live_pass_navigation_fails c tab url i s e w H)
      as (s1 & s' & _ & E & Hc & _).
    exists []. now rewrite E.
  - destruct (live_pass_navigation_succeeds c tab url i s u w H)
      as (o2 & o3 & o4 & s1 & s' & _ & E & Hc & _).
    eexists. rewrite E. simpl. rewrite Hc. reflexivity.
Qed.

(** C10.  The base URL handed to the live-application suite is the target
    URL without its last '/' and what follows it: for a target
    [prefix/segment], [segment] holding no '/', the base is [prefix] and the
    suite navigates to [prefix/settings].  So
    [http://localhost:8080/settings] gives the base [http://localhost:8080],
    while [http://localhost:3000], with no path after the host, loses
    [/localhost:3000]: the base is [http:/] and the suite navigates to
    [http://settings]. *)
Theorem live_base_url :
  (forall prefix seg,
      noSlash seg = true ->
      replaceLastSegment (prefix ++ "/" ++ seg) = prefix
      /\ forall W (c : ChromeWs W) tab i (s : State W),
          exists rest,
            calls (snd (iterationBody c true tab (prefix ++ "/" ++ seg) i s))
            = (calls s ++ CNavigate tab (prefix ++ "/settings") :: rest)%list)
  /\ replaceLastSegment "http://localhost:8080/settings" = "http://localhost:8080"
  /\ replaceLastSegment "http://localhost:3000" = "http:/"
  /\ (forall W (c : ChromeWs W) tab i (s : State W),
        exists rest,
          calls (snd (iterationBody c true tab "http://localhost:3000" i s))
          = (calls s ++ CNavigate tab "http://settings" :: rest)%list)
  /\ isLiveAppOf "http://localhost:3000" = true
  /\ calls (snd (main steady "/repo/test-react-inputs.html"
                      ["1"; "http://localhost:3000"] (initial 0)))
     = [ CInitializeSession;
         CNavigate 0 "http://localhost:3000";
         CNavigate 0 "http://settings";
         CClick 0 xpathNewOrganization;
         CFill 0 "TestOrg1" formTextInput;
         CClick 0 "button[type='button']" ].
Proof.
  split; [|split; [reflexivity|split; [reflexivity|split; [|split]]]].
  - intros prefix seg H. split; [now apply replaceLastSegment_app|].
    intros W c tab i s.
    destruct (live_pass_first_call c tab (prefix ++ "/" ++ seg) i s) as [rest E].
    exists rest. rewrite E. now rewrite replaceLastSegment_app.
  - intros W c tab i s.
    exact (live_pass_first_call c tab "http://localhost:3000" i s).
  - reflexivity.
  - vm_compute. reflexivity.
Qed.

(** The target [http://localhost:8080/orgs/list]. *)
Lemma live_base_url_witness :
  noSlash "list" = true
  /\ replaceLastSegment ("http://localhost:8080/orgs" ++ "/" ++ "list")
     = "http://localhost:8080/orgs"
  /\ forall W (c : ChromeWs W) tab i (s : State W),
      exists rest,
        calls (snd (iterationBody c true tab
                      ("http://localhost:8080/orgs" ++ "/" ++ "list") i s))
        = (calls s
             ++ CNavigate tab ("http://localhost:8080/orgs" ++ "/settings")
             :: rest)%list.
Proof.
  split; [reflexivity|].
  exact (proj1 live_base_url "http://localhost:8080/orgs" "list" eq_refl).
Defined.

(** The loss of navigation on the second of three live-application passes:
    passes 1 and 3 record four successes each, pass 2 the navigation failure
    alone. *)
Example navigation_down_on_second_pass :
  let '(t, s) := main (navigationDown 6) "/repo/test-react-inputs.html"
                      ["3"; "http://localhost:8080/settings"] (initial 0) in
  t = Reported (Some "11.1") 1
  /\ passed (results s) = 8 /\ failed (results s) = 1
  /\ errors (results s)
     = [ {| iteration := 2; test := "Navigate to settings";
            error := "net::ERR_CONNECTION_REFUSED" |} ].
Proof. vm_compute. repeat split. Qed.

(** A live-application pass in which both clicks fail: the fill and the
    second click are attempted all the same. *)
Example clicks_fail_live_pass :
  let '(r, s) := iterationBody clicksFail true 0
                   "http://localhost:8080/settings" 1 (initial 0) in
  r = inr tt
  /\ calls s = liveCalls 0 "http://localhost:8080" 1
  /\ passed (results s) = 2 /\ failed (results s) = 2
  /\ map test (errors (results s))
     = ["Click New Organization (XPath)"; "Click Cancel"].
Proof. vm_compute. repeat split. Qed.

(** A pass whose navigation is refused. *)
Lemma live_pass_outcomes_witness :
  navigate (navigationDown 0) 0
    (replaceLastSegment "http://localhost:8080/settings" ++ "/settings")
    (browser (initial 0))
  = (inl {| message := "net::ERR_CONNECTION_REFUSED" |}, 1)
  /\ exists s1 s',
      runLiveAppTests (navigationDown 0) 0
        (replaceLastSegment "http://localhost:8080/settings") 1 (initial 0)
      = (inr [ {| name := "Navigate to settings";
                  result := Failure "net::ERR_CONNECTION_REFUSED" |} ], s1)
      /\ iterationBody (navigationDown 0) true 0
           "http://localhost:8080/settings" 1 (initial 0) = (inr tt, s')
      /\ calls s' = [CNavigate 0 "http://localhost:8080/settings"]
      /\ passed (results s') = 0
      /\ failed (results s') = 1
      /\ errors (results s')
         = [ {| iteration := 1; test := "Navigate to settings";
                error := "net::ERR_CONNECTION_REFUSED" |} ].
Proof.
  split; [reflexivity|].
  exact (proj1 (live_pass_outcomes nat (navigationDown 0) 0
                  "http://localhost:8080/settings" 1 (initial 0))
           {| message := "net::ERR_CONNECTION_REFUSED" |} 1 eq_refl).
Defined.

(** ** The payloads of the typing steps *)

Lemma show_nat_inj (i j : nat) : show_nat i = show_nat j -> i = j.
Proof.
  unfold show_nat. intros H.
  apply (f_equal NilEmpty.uint_of_string) in H.
  rewrite !NilEmpty.usu in H. injection H as H.
  apply (f_equal Nat.of_uint) in H.
  now rewrite !Unsigned.of_to in H.
Qed.

Lemma typing_steps_partition (i : nat) :
  map test_name (filter (fun t => match fn t with DoType _ _ => true | _ => false end)
                        (tests i))
  = [ "Type in controlled input"; "Type in uncontrolled input";
      "Type in validated input"; "Type in nested input";
      "Type in transform input"; "Type in debounced input";
      "Type in email input"; "Type in textarea" ].
Proof. reflexivity. Qed.

(** C3, as the code has it.  Four of the eight typing steps (controlled,
    uncontrolled, nested and debounced input) type the text [test] followed
    by the decimal iteration index, so their payloads differ between any two
    distinct iterations.  The other four (validated, transform and email
    input, textarea) type a fixed text, the same in every iteration. *)
Theorem typing_payloads :
  (forall i j n,
      i <> j -> In n indexedSteps ->
      payload i n = Some ("test" ++ show_nat i)
      /\ payload i n <> payload j n)
  /\ (forall i j n,
        In n constantSteps ->
        payload i n = payload j n /\ exists text, payload i n = Some text)
  /\ payload 0 "Type in validated input" = Some "abc"
  /\ payload 0 "Type in transform input" = Some "hello"
  /\ payload 0 "Type in email input" = Some "test@example.com"
  /\ payload 0 "Type in textarea" = Some "line1\nline2".
Proof.
  split; [|split; [|repeat split]].
  - intros i j n Hij Hn.
    assert (E : forall k, payload k n = Some ("test" ++ show_nat k)).
    { intros k. simpl in Hn.
      destruct Hn as [<-|[<-|[<-|[<-|[]]]]]; reflexivity. }
    split; [apply E|].
    rewrite !E. intros H. injection H as H. now apply show_nat_inj in H.
  - intros i j n Hn. simpl in Hn.
    destruct Hn as [<-|[<-|[<-|[<-|[]]]]]; split; try reflexivity;
      eexists; reflexivity.
Qed.

Lemma typing_payloads_witness :
  1 <> 2
  /\ In "Type in nested input" indexedSteps
  /\ payload 1 "Type in nested input" = Some ("test" ++ show_nat 1)
  /\ payload 1 "Type in nested input" <> payload 2 "Type in nested input".
Proof.
  split; [lia|]. split; [simpl; tauto|].
  apply (proj1 typing_payloads 1 2 "Type in nested input");
    [lia | simpl; tauto].
Defined.

(** Iterations 1 and 2 type the same text into the validated input, and
    that text does not hold the iteration index. *)
Lemma validated_payload_is_constant :
  1 <> 2
  /\ payload 1 "Type in validated input" = Some "abc"
  /\ payload 2 "Type in validated input" = Some "abc".
Proof. repeat split. lia. Qed.

(** ** The iteration count and the empty run *)

Lemma iterate_zero {W} (c : ChromeWs W) live tab url (iterations : Z) (s : State W) :
  (iterations <= 0)%Z ->
  runIterations c live tab url iterations s = (inr tt, s).
Proof.
  intros H. unfold runIterations.
  replace (Z.to_nat iterations) with 0 by lia. reflexivity.
Qed.

(** C2, as the code has it.  The iteration count is the first argument as
    [parseInt] reads it when that is a non-zero integer, and 50 when the
    argument is absent, does not start with an integer, or reads as 0.
    When the count is below 1, and the session and the page load succeed,
    no suite is invoked: the two setup calls are the only client calls, and
    the run ends with [passed = 0], [failed = 0] and exit code 0. *)
Theorem iteration_count :
  forall args : list string,
    (nth_error args 0 = None -> iterationsOf args = 50%Z)
    /\ (forall a, nth_error args 0 = Some a ->
                  parseInt a = None \/ parseInt a = Some 0%Z ->
                  iterationsOf args = 50%Z)
    /\ (forall a z, nth_error args 0 = Some a ->
                    parseInt a = Some z -> z <> 0%Z ->
                    iterationsOf args = z)
    /\ (forall W (c : ChromeWs W) fixture (w : W) tab w1 u w2,
          (iterationsOf args <= 0)%Z ->
          initializeSession c w = (inr tab, w1) ->
          navigate c tab (testUrlOf fixture args) w1 = (inr u, w2) ->
          exists rate s',
            main c fixture args (initial w) = (Reported rate 0, s')
            /\ results s' = results0
            /\ calls s' = [CInitializeSession;
                           CNavigate tab (testUrlOf fixture args)]).
Proof.
  intros args. unfold iterationsOf. repeat split.
  - intros H. rewrite H. reflexivity.
  - intros a H [P|P]; rewrite H; simpl; rewrite P; reflexivity.
  - intros a z H P Hz. rewrite H. simpl. rewrite P.
    destruct z; [now elim Hz | reflexivity | reflexivity].
  - intros W c fixture w tab w1 u w2 Hn Hinit Hnav.
    unfold main. unfold call at 1. simpl. rewrite Hinit.
    unfold bind, call, sleep. simpl. rewrite Hnav.
    rewrite iterate_zero by exact Hn. simpl.
    do 2 eexists. repeat split.
Qed.

(** The argument [-1]: no pass is made. *)
Lemma iteration_count_witness :
  (iterationsOf ["-1"] <= 0)%Z
  /\ initializeSession steady 0 = (inr 0, 1)
  /\ navigate steady 0 (testUrlOf "/repo/test-react-inputs.html" ["-1"]) 1
     = (inr tt, 2)
  /\ exists rate s',
      main steady "/repo/test-react-inputs.html" ["-1"] (initial 0)
      = (Reported rate 0, s')
      /\ results s' = results0
      /\ calls s' = [CInitializeSession;
                     CNavigate 0 (testUrlOf "/repo/test-react-inputs.html" ["-1"])].
Proof.
  split; [vm_compute; discriminate|]. split; [reflexivity|].
  split; [reflexivity|].
  refine (proj2 (proj2 (proj2 (iteration_count ["-1"])))
            nat steady "/repo/test-react-inputs.html" 0 0 1 tt 2 _ eq_refl eq_refl).
  vm_compute; discriminate.
Defined.

(** The argument [0] runs the default 50 passes (450 outcomes against a
    client that always succeeds), and so does an argument that is present
    but is no number. *)
Lemma zero_argument_runs_fifty_passes :
  iterationsOf ["0"] = 50%Z
  /\ iterationsOf ["abc"] = 50%Z
  /\ (let '(t, s) := main steady "/repo/test-react-inputs.html" ["0"] (initial 0) in
      t = Reported (Some "0.0") 0
      /\ passed (results s) = 450
      /\ failed (results s) = 0
      /\ List.length (calls s) = 902).
Proof. vm_compute. repeat split. Qed.

(** C1 on the empty run.  With no outcome recorded the rate is 0 / 0, which
    is NaN, and [toFixed] prints it as NaN; the argument [-1] gives such a
    run, and it ends with exit code 0. *)
Theorem empty_run_prints_NaN :
  failRateValue results0 = S754_nan
  /\ failRate results0 = Some "NaN"
  /\ (let '(t, s) := main steady "/repo/test-react-inputs.html" ["-1"] (initial 0) in
      t = Reported (Some "NaN") 0 /\ results s = results0).
Proof. vm_compute. repeat split. Qed.

(** ** Exceptions during the iteration phase *)

Section ExceptionFacts.

Context {W : Type} (c : ChromeWs W).

















End ExceptionFacts.




(** ** The printed failure rate *)

Lemma digits2_pos_size p : digits2_pos p = Pos.size p.
Proof. induction p; simpl; congruence. Qed.

Lemma digits2_pos_iter_xO k p :
  digits2_pos (Pos.iter xO p k) = (digits2_pos p + k)%positive.
Proof.
  induction k as [|k IH] using Pos.peano_ind.
  - simpl. now rewrite Pos.add_1_r.
  - rewrite Pos.iter_succ. simpl. rewrite IH. lia.
Qed.

Lemma digits2_pos_bound p :
  (Zpos p < 2 ^ 53)%Z -> (Zpos (digits2_pos p) <= 53)%Z.
Proof.
  intros H. rewrite digits2_pos_size.
  pose proof (Pos.size_le p) as L.
  assert (2 ^ Zpos (Pos.size p) <= 2 * Zpos p)%Z as L'.
  { rewrite <- Pos2Z.inj_pow. change (2 * Zpos p)%Z with (Zpos p~0). lia. }
  destruct (Z.le_gt_cases (Zpos (Pos.size p)) 53) as [|G]; [assumption|].
  assert (2 ^ 54 <= 2 ^ Zpos (Pos.size p))%Z by (apply Z.pow_le_mono_r; lia).
  lia.
Qed.

Lemma fexp_small d :
  (-1021 <= d)%Z -> fexp prec emax d = (d - 53)%Z.
Proof. intros H. unfold fexp, emin, prec, emax. lia. Qed.

(** A mantissa of 53 bits is not shifted. *)
Lemma shr_fexp_canonical m e :
  fexp prec emax (Zpos (digits2_pos m) + e) = e ->
  shr_fexp prec emax (Zpos m) e loc_Exact
  = ({| shr_m := Zpos m; shr_r := false; shr_s := false |}, e).
Proof.
  intros H. unfold shr_fexp.
  change (Zdigits2 (Zpos m)) with (Zpos (digits2_pos m)).
  rewrite H, Z.sub_diag. reflexivity.
Qed.

Lemma binary_round_aux_canonical m e :
  fexp prec emax (Zpos (digits2_pos m) + e) = e -> (e <= 971)%Z ->
  binary_round_aux prec emax false (Zpos m) e loc_Exact = S754_finite false m e.
Proof.
  intros Hd He. unfold binary_round_aux.
  rewrite (shr_fexp_canonical m e Hd).
  cbn [shr_m loc_of_shr_record round_nearest_even].
  rewrite (shr_fexp_canonical m e Hd).
  cbn [shr_m]. change (emax - prec)%Z with 971%Z.
  destruct (Z.leb_spec e 971); [reflexivity | lia].
Qed.

(** A positive count below 2^53 is a positive finite Number. *)
Lemma ofNat_finite n :
  0 < n -> (Z.of_nat n < 2 ^ 53)%Z ->
  exists m e, ofNat n = S754_finite false m e.
Proof.
  intros Hpos Hlt. unfold ofNat.
  destruct (Z.of_nat n) as [|p|p] eqn:E; try lia.
  pose proof (digits2_pos_bound p Hlt) as Hd.
  assert (0 < Zpos (digits2_pos p))%Z as Hd0 by lia.
  unfold binary_normalize, binary_round, shl_align.
  rewrite fexp_small by lia.
  destruct (Zpos (digits2_pos p) + 0 - 53 - 0)%Z as [|d|d] eqn:Ed; try lia.
  - do 2 eexists. apply binary_round_aux_canonical; [|lia].
    rewrite fexp_small by lia. lia.
  - do 2 eexists. apply binary_round_aux_canonical; [|lia].
    rewrite digits2_pos_iter_xO, fexp_small by lia. lia.
Qed.

Lemma div_eucl_mul (a : positive) (b : Z) :
  Z.div_eucl (Zpos a * b) (Zpos a) = (b, 0%Z).
Proof.
  pose proof (Z.div_mul b (Zpos a)) as Hq.
  pose proof (Z.mod_mul b (Zpos a)) as Hr.
  unfold Z.div, Z.modulo in *. rewrite (Z.mul_comm (Zpos a) b).
  destruct (Z.div_eucl (b * Zpos a) (Zpos a)) as [q r].
  simpl in *. rewrite Hq, Hr by lia. reflexivity.
Qed.

(** x / x is 1 for a finite non-zero x. *)
Lemma div_self m e :
  div (S754_finite false m e) (S754_finite false m e)
  = S754_finite false 4503599627370496 (-52).
Proof.
  unfold div, SFdiv, SFdiv_core_binary.
  replace (Zdigits2 (Zpos m) + e - (Zdigits2 (Zpos m) + e))%Z with 0%Z by lia.
  replace (e - e)%Z with 0%Z by lia.
  change (Z.min (fexp prec emax 0) 0) with (-53)%Z.
  change (0 - -53)%Z with 53%Z. cbv iota beta.
  rewrite Z.shiftl_mul_pow2 by lia.
  rewrite div_eucl_mul.
  assert (new_location (Zpos m) 0 = loc_Exact) as ->.
  { unfold new_location, new_location_even, new_location_odd.
    destruct (Z.even (Zpos m)); reflexivity. }
  vm_compute. reflexivity.
Qed.

(** C8.  With at least one outcome recorded (and counts below 2^53, where
    counting by [++] is exact): the printed rate is 0.0 when nothing failed
    and 100.0 when nothing passed; with 24 passed and 3 failed it is 11.1,
    which is 100 * 3 / 27 to one decimal. *)
Theorem printed_failure_rate :
  (forall r,
      failed r = 0 -> 0 < passed r -> (Z.of_nat (passed r) < 2 ^ 53)%Z ->
      failRate r = Some "0.0")
  /\ (forall r,
        passed r = 0 -> 0 < failed r -> (Z.of_nat (failed r) < 2 ^ 53)%Z ->
        failRate r = Some "100.0")
  /\ (forall es, failRate {| passed := 24; failed := 3; errors := es |} = Some "11.1")
  /\ (100 * 3 * 10 / 27 = 111 /\ 1000 * 3 - 111 * 27 < 112 * 27 - 1000 * 3).
Proof.
  split; [|split; [|split]].
  - intros r Hf Hp Hb. unfold failRate, failRateValue. rewrite Hf.
    destruct (ofNat_finite (passed r) Hp Hb) as (m & e & E). rewrite E.
    reflexivity.
  - intros r Hp Hf Hb. unfold failRate, failRateValue. rewrite Hp.
    destruct (ofNat_finite (failed r) Hf Hb) as (m & e & E). rewrite E.
    change (add (ofNat 0) (S754_finite false m e)) with (S754_finite false m e).
    rewrite div_self. vm_compute. reflexivity.
  - intros es. vm_compute. reflexivity.
  - vm_compute. split; [reflexivity|]. lia.
Qed.

Lemma printed_failure_rate_witness :
  (failed {| passed := 450; failed := 0; errors := [] |} = 0
   /\ 0 < passed {| passed := 450; failed := 0; errors := [] |}
   /\ failRate {| passed := 450; failed := 0; errors := [] |} = Some "0.0")
  /\ (passed {| passed := 0; failed := 7; errors := [] |} = 0
      /\ 0 < failed {| passed := 0; failed := 7; errors := [] |}
      /\ failRate {| passed := 0; failed := 7; errors := [] |} = Some "100.0").
Proof.
  split; (split; [reflexivity|]); (split; [simpl; lia|]).
  - apply (proj1 printed_failure_rate); [reflexivity | simpl; lia | simpl; lia].
  - apply (proj1 (proj2 printed_failure_rate));
      [reflexivity | simpl; lia | simpl; lia].
Defined.

(* ================================================================== *)
(** * Further properties of the code *)
(* ================================================================== *)

(** ** Grouping the failures by test name *)

Lemma seeName_In k seen x :
  In x (seeName seen k) <-> In x seen \/ x = k.
Proof.
  unfold seeName. destruct (existsb (String.eqb k) seen) eqn:E.
  - split; [auto|]. intros [H| ->]; [exact H|].
    apply existsb_exists in E as (y & Hy & Hk).
    apply String.eqb_eq in Hk. now subst.
  - rewrite in_app_iff. simpl. intuition.
Qed.

Lemma seeName_NoDup k seen : NoDup seen -> NoDup (seeName seen k).
Proof.
  intros H. unfold seeName. destruct (existsb (String.eqb k) seen) eqn:E;
    [exact H|].
  apply NoDup_app; [exact H | constructor; [intros []|constructor] |].
  intros x Hx [Hk|[]]. subst x.
  assert (existsb (String.eqb k) seen = true) as C
      by (apply existsb_exists; exists k; split; [exact Hx | apply String.eqb_refl]).
  congruence.
Qed.

Lemma fold_seeName_In names seen x :
  In x (fold_left seeName names seen) <-> In x seen \/ In x names.
Proof.
  revert seen; induction names as [|k names IH]; intros seen; simpl.
  - tauto.
  - rewrite IH, seeName_In. intuition.
Qed.

Lemma fold_seeName_NoDup names seen :
  NoDup seen -> NoDup (fold_left seeName names seen).
Proof.
  revert seen; induction names as [|k names IH]; intros seen H; simpl;
    [exact H|].
  apply IH, seeName_NoDup, H.
Qed.

Lemma firstOccurrences_In names x : In x (firstOccurrences names) <-> In x names.
Proof.
  unfold firstOccurrences. rewrite fold_seeName_In. simpl. tauto.
Qed.

Lemma firstOccurrences_NoDup names : NoDup (firstOccurrences names).
Proof. apply fold_seeName_NoDup. constructor. Qed.

Lemma groupOf_app k errs e :
  groupOf k (errs ++ [e])
  = (groupOf k errs ++ (if String.eqb (test e) k then [e] else []))%list.
Proof. unfold groupOf. rewrite filter_app. reflexivity. Qed.

(** Pushing one more record into the groups of [errs], listed by [ks]. *)
Lemma pushGrouped_groups e errs ks :
  NoDup ks ->
  pushGrouped e (map (fun k => (k, groupOf k errs)) ks)
  = (map (fun k => (k, groupOf k (errs ++ [e]))) ks
       ++ (if existsb (String.eqb (test e)) ks then [] else [(test e, [e])]))%list.
Proof.
  induction ks as [|k ks IH]; intros ND; simpl; [reflexivity|].
  inversion ND as [|? ? Hk ND']; subst.
  rewrite groupOf_app, (String.eqb_sym (test e) k).
  destruct (String.eqb k (test e)) eqn:E; simpl.
  - apply String.eqb_eq in E. subst k.
    rewrite app_nil_r. f_equal.
    apply map_ext_in. intros k Hin. rewrite groupOf_app.
    destruct (String.eqb (test e) k) eqn:X.
    + apply String.eqb_eq in X. subst k. contradiction.
    + now rewrite app_nil_r.
  - rewrite app_nil_r, IH by exact ND'. reflexivity.
Qed.

Lemma errorsByTest_closed_form errs :
  errorsByTest errs
  = map (fun k => (k, groupOf k errs)) (firstOccurrences (map test errs)).
Proof.
  induction errs as [|e errs IH] using rev_ind; [reflexivity|].
  unfold errorsByTest, firstOccurrences in *.
  rewrite map_app, !fold_left_app. simpl.
  rewrite IH, pushGrouped_groups by apply firstOccurrences_NoDup.
  fold (firstOccurrences (map test errs)).
  unfold seeName. destruct (existsb (String.eqb (test e)) _) eqn:E.
  - now rewrite app_nil_r.
  - rewrite map_app. simpl. do 2 f_equal.
    rewrite groupOf_app, String.eqb_refl.
    assert (groupOf (test e) errs = []) as ->; [|reflexivity].
    unfold groupOf.
    destruct (filter (fun e0 => String.eqb (test e0) (test e)) errs)
      as [|x l] eqn:F; [reflexivity|].
    assert (In x (x :: l)) as Hx by (left; reflexivity).
    rewrite <- F in Hx. apply filter_In in Hx as (Hx & Hk).
    apply String.eqb_eq in Hk.
    assert (existsb (String.eqb (test e)) (firstOccurrences (map test errs)) = true)
      as C.
    { apply existsb_exists. exists (test e). split; [|apply String.eqb_refl].
      apply firstOccurrences_In. rewrite <- Hk. now apply in_map. }
    congruence.
Qed.

(** X1.  Grouping the recorded failures by test name gives one group per
    name that failed, the names without repeats and in the order of their
    first failure; the group of a name holds exactly the failures recorded
    under it, in recorded order, and is never empty.  So every failure
    record is in the group of its own name and in no other. *)
Theorem errorsByTest_partition :
  forall errs : list ErrorRecord,
    let groups := errorsByTest errs in
    map fst groups = firstOccurrences (map test errs)
    /\ NoDup (map fst groups)
    /\ (forall k, In k (map fst groups) <-> In k (map test errs))
    /\ (forall k g, In (k, g) groups -> g = groupOf k errs /\ g <> [])
    /\ (forall e k g, In (k, g) groups -> In e g <-> In e errs /\ test e = k).
Proof.
  intros errs groups. subst groups. rewrite errorsByTest_closed_form.
  rewrite map_map. simpl. rewrite map_id.
  split; [reflexivity|]. split; [apply firstOccurrences_NoDup|].
  split; [intros k; apply firstOccurrences_In|].
  assert (G : forall k g,
             In (k, g) (map (fun k => (k, groupOf k errs))
                            (firstOccurrences (map test errs))) ->
             g = groupOf k errs /\ In k (map test errs)).
  { intros k g H. apply in_map_iff in H as (k' & E & Hk).
    injection E as <- <-. split; [reflexivity|].
    now apply firstOccurrences_In. }
  split.
  - intros k g H. destruct (G k g H) as (-> & Hk). split; [reflexivity|].
    apply in_map_iff in Hk as (e & <- & He).
    intros C.
    assert (In e (groupOf (test e) errs)) as X
        by (apply filter_In; split; [exact He | apply String.eqb_refl]).
    rewrite C in X. exact X.
  - intros e k g H. destruct (G k g H) as (-> & _).
    unfold groupOf. rewrite filter_In, String.eqb_eq. reflexivity.
Qed.

(** ** The error records of a run *)

Lemma newErrors_Forall i rs (names : list string) :
  Forall (fun x => In (name x) names) rs ->
  Forall (fun e => iteration e = i /\ In (test e) names) (newErrors i rs).
Proof.
  induction 1 as [|x rs Hx _ IH]; simpl; [constructor|].
  destruct (result x); simpl; [exact IH|].
  constructor; [split; [reflexivity | exact Hx] | exact IH].
Qed.

Lemma StronglySorted_app {A} (R : A -> A -> Prop) l1 l2 :
  StronglySorted R l1 -> StronglySorted R l2 ->
  (forall a b, In a l1 -> In b l2 -> R a b) ->
  StronglySorted R (l1 ++ l2).
Proof.
  induction l1 as [|x l1 IH]; intros S1 S2 H; simpl; [exact S2|].
  inversion S1 as [|? ? S1' F1]; subst. constructor.
  - apply IH; [exact S1' | exact S2 |]. intros a b Ha Hb. apply H; simpl; auto.
  - apply Forall_app. split; [exact F1|].
    apply Forall_forall. intros b Hb. apply H; simpl; auto.
Qed.

Lemma same_iteration_sorted i (l : list ErrorRecord) :
  Forall (fun e => iteration e = i) l -> StronglySorted byIteration l.
Proof.
  induction 1 as [|x l Hx Hl IH]; constructor; [exact IH|].
  apply Forall_forall. intros y Hy. rewrite Forall_forall in Hl.
  unfold byIteration. rewrite Hx, (Hl y Hy). constructor.
Qed.

Section RunFacts.

Context {W : Type} (c : ChromeWs W).

Lemma fixed_names_any_pass i : map test_name (tests i) = fixedNames.
Proof. reflexivity. Qed.

(** The outcomes a pass records carry step names of its suite, at most
    nine of them on the fixed page and four on a live application. *)
Lemma pass_outcomes live tab url i (s : State W) :
  exists rs,
    results (snd (iterationBody c live tab url i s))
    = fold_left (fun r x => recordLive i x r) rs (results s)
    /\ Forall (fun x => In (name x) (suiteNames live)) rs
    /\ List.length rs <= List.length (suiteNames live).
Proof.
  unfold iterationBody. destruct live.
  - destruct (navigate c tab (replaceLastSegment url ++ "/settings") (browser s))
      as [[e|u] w] eqn:H.
    + pose proof (runLiveAppTests_navigation_fails c tab _ i s e w H) as R.
      exists [ko "Navigate to settings" e].
      unfold bind at 1. unfold bind at 1. rewrite R.
      rewrite forEachResult_spec. split; [reflexivity|].
      split; [|simpl; lia].
      repeat (apply Forall_cons; [simpl; auto 6|]). apply Forall_nil.
    + destruct (runLiveAppTests_navigation_succeeds c tab _ i s u w H)
        as (o2 & o3 & o4 & s1 & R & Hres & _).
      exists [ ok "Navigate to settings";
               {| name := "Click New Organization (XPath)"; result := o2 |};
               {| name := "Type org name"; result := o3 |};
               {| name := "Click Cancel"; result := o4 |} ].
      unfold bind at 1. unfold bind at 1. rewrite R.
      rewrite forEachResult_spec. cbn [snd results]. rewrite Hres.
      split; [reflexivity|]. split; [|simpl; lia].
      repeat (apply Forall_cons; [simpl; auto 6|]). apply Forall_nil.
  - unfold bind at 1. unfold bind at 1. unfold clearTestPage.
    run_monad.
    destruct (eval c tab clearScript (browser s)) as [[e|v] w]; simpl.
    + exists []. split; [reflexivity|]. split; [constructor | simpl; lia].
    + match goal with
      | |- context [runIteration c tab i ?st] =>
          destruct (runIteration_spec c tab i st) as (rs & s' & R & Hn & Hl & Hr)
      end.
      rewrite R. simpl. exists rs. split; [exact Hr|].
      split; [|rewrite Hl; simpl; lia].
      apply Forall_forall. intros x Hx.
      change (In (name x) (map test_name (tests i))). rewrite <- Hn.
      now apply in_map.
Qed.

Lemma iterate_errors live tab url n i (s : State W) :
  exists E,
    errors (results (snd (iterate c live tab url n i s)))
    = (errors (results s) ++ E)%list
    /\ Forall (fun e => i <= iteration e < i + n
                        /\ In (test e) (suiteNames live)) E
    /\ StronglySorted byIteration E.
Proof.
  revert i s; induction n as [|n IH]; intros i s; simpl.
  - exists []. rewrite app_nil_r. repeat constructor.
  - destruct (pass_outcomes live tab url i s) as (rs & Hrs & Hnames & _).
    pose proof (newErrors_Forall i rs _ Hnames) as FE.
    unfold bind.
    destruct (iterationBody c live tab url i s) as [[e|u] s1]; simpl in *.
    + exists (newErrors i rs). rewrite Hrs, fold_recordLive_errors.
      split; [reflexivity|]. split.
      * eapply Forall_impl; [|exact FE]. simpl. intros a [Ha Hb].
        split; [lia | exact Hb].
      * apply (same_iteration_sorted i).
        eapply Forall_impl; [|exact FE]. simpl. tauto.
    + destruct (IH (S i) s1) as (E & HE & FE' & SE).
      exists (newErrors i rs ++ E)%list.
      rewrite HE, Hrs, fold_recordLive_errors, app_assoc.
      split; [reflexivity|]. split.
      * apply Forall_app. split.
        -- eapply Forall_impl; [|exact FE]. simpl. intros a [Ha Hb].
           split; [lia | exact Hb].
        -- eapply Forall_impl; [|exact FE']. simpl. intros a [Ha Hb].
           split; [lia | exact Hb].
      * apply StronglySorted_app; [|exact SE|].
        -- apply (same_iteration_sorted i).
           eapply Forall_impl; [|exact FE]. simpl. tauto.
        -- intros a b Ha Hb. rewrite Forall_forall in FE, FE'.
           destruct (FE a Ha) as [Hi _]. destruct (FE' b Hb) as [Hj _].
           unfold byIteration. lia.
Qed.

End RunFacts.

Lemma main_errors {W} (c : ChromeWs W) fixture args (w : W) :
  exists E,
    errors (results (snd (main c fixture args (initial w)))) = E
    /\ Forall (fun e =>
                 1 <= iteration e
                 /\ (Z.of_nat (iteration e) <= iterationsOf args)%Z
                 /\ In (test e) (suiteNames (isLiveAppOf (testUrlOf fixture args))))
              E
    /\ StronglySorted byIteration E.
Proof.
  unfold main. unfold call at 1. simpl.
  destruct (initializeSession c w) as [[e|tab] w1]; simpl;
    [exists []; repeat split; constructor|].
  unfold bind at 1. unfold call at 1. simpl.
  destruct (navigate c tab (testUrlOf fixture args) w1) as [[e|u] w2]; simpl;
    [exists []; repeat split; constructor|].
  unfold runIterations.
  match goal with
  | |- context [iterate c ?l ?t ?u ?n ?i ?st] =>
      destruct (iterate_errors c l t u n i st) as (E & HE & FE & SE);
      destruct (iterate c l t u n i st) as [[e1|u1] s3]
  end; simpl in *; exists E; (split; [exact HE|]); (split; [|exact SE]);
    (eapply Forall_impl; [|exact FE]); simpl; intros a [Ha Hb];
    (split; [lia|]); (split; [lia | exact Hb]).
Qed.

(** X2.  In the final [results] of every run of [main], whatever the client
    does and however the run ends, each error record carries an iteration
    index between 1 and the iteration count and the name of a step of the
    suite that was selected, and the records are in non-decreasing order of
    iteration. *)
Theorem error_records_well_formed :
  forall (W : Type) (c : ChromeWs W) (fixture : string) (args : list string)
         (w : W),
    let errs := errors (results (snd (main c fixture args (initial w)))) in
    Forall (fun e =>
              1 <= iteration e
              /\ (Z.of_nat (iteration e) <= iterationsOf args)%Z
              /\ In (test e) (suiteNames (isLiveAppOf (testUrlOf fixture args))))
           errs
    /\ StronglySorted (fun a b => iteration a <= iteration b) errs.
Proof.
  intros W c fixture args w errs. subst errs.
  destruct (main_errors c fixture args w) as (E & -> & FE & SE).
  split; [exact FE | exact SE].
Qed.

(** ** The failure listing *)

Lemma pushGrouped_total e groups :
  groupedTotal (pushGrouped e groups) = S (groupedTotal groups).
Proof.
  unfold groupedTotal.
  induction groups as [|[k g] groups IH]; simpl; [reflexivity|].
  destruct (String.eqb k (test e)); simpl.
  - rewrite length_app. simpl. lia.
  - rewrite IH. lia.
Qed.

Lemma errorsByTest_total errs :
  groupedTotal (errorsByTest errs) = List.length errs.
Proof.
  induction errs as [|e errs IH] using rev_ind; [reflexivity|].
  unfold errorsByTest in *. rewrite fold_left_app. simpl.
  rewrite pushGrouped_total, IH, length_app. simpl. lia.
Qed.

Lemma groupLines_length t g :
  List.length (groupLines t g)
  = 1 + Nat.min 3 (List.length g) + (if (3 <? List.length g)%nat then 1 else 0).
Proof.
  unfold groupLines. cbn [List.length].
  rewrite length_app, length_map, length_firstn.
  destruct (3 <? List.length g)%nat; cbn [List.length]; lia.
Qed.

Lemma failureListing_length errs :
  List.length (failureListing errs) <= 5 * List.length (errorsByTest errs).
Proof.
  unfold failureListing.
  induction (errorsByTest errs) as [|[k g] groups IH]; [simpl; lia|].
  cbn [flat_map fst snd]. rewrite length_app, groupLines_length.
  change (List.length ((k, g) :: groups)) with (S (List.length groups)).
  destruct (3 <? List.length g)%nat; lia.
Qed.

Lemma errorsByTest_keys_bound errs (names : list string) :
  Forall (fun e => In (test e) names) errs ->
  List.length (errorsByTest errs) <= List.length names.
Proof.
  intros H. rewrite errorsByTest_closed_form, length_map.
  apply NoDup_incl_length; [apply firstOccurrences_NoDup|].
  intros k Hk. apply (proj1 (firstOccurrences_In _ _)) in Hk.
  apply in_map_iff in Hk as (e & <- & He).
  rewrite Forall_forall in H. now apply H.
Qed.

Lemma main_errors_length {W} (c : ChromeWs W) fixture args (w : W) :
  List.length (errors (results (snd (main c fixture args (initial w)))))
  = failed (results (snd (main c fixture args (initial w)))).
Proof.
  destruct (main_records c fixture args w) as (es & Hes). rewrite Hes.
  destruct (recordAll_counts es results0) as (_ & H2 & H3).
  simpl in *. lia.
Qed.

(** X3.  For the final [results] of every run of [main]: the sizes of the
    groups of the failure listing add up to [failed]; there are no more
    groups than the selected suite has steps, so at most nine; and the
    listing has at most five lines for each group, so at most 45 lines
    however many failures were recorded. *)
Theorem listing_accounts_for_failures :
  forall (W : Type) (c : ChromeWs W) (fixture : string) (args : list string)
         (w : W),
    let r := results (snd (main c fixture args (initial w))) in
    let groups := errorsByTest (errors r) in
    groupedTotal groups = failed r
    /\ List.length groups
       <= List.length (suiteNames (isLiveAppOf (testUrlOf fixture args)))
    /\ List.length groups <= 9
    /\ List.length (failureListing (errors r)) <= 5 * List.length groups
    /\ List.length (failureListing (errors r)) <= 45.
Proof.
  intros W c fixture args w r groups.
  assert (T : groupedTotal groups = failed r).
  { subst groups r. rewrite errorsByTest_total. apply main_errors_length. }
  assert (K : List.length groups
              <= List.length (suiteNames (isLiveAppOf (testUrlOf fixture args)))).
  { subst groups r. apply errorsByTest_keys_bound.
    destruct (main_errors c fixture args w) as (E & -> & FE & _).
    eapply Forall_impl; [|exact FE]. simpl. tauto. }
  assert (N : List.length (suiteNames (isLiveAppOf (testUrlOf fixture args))) <= 9)
    by (destruct (isLiveAppOf (testUrlOf fixture args)); simpl; lia).
  pose proof (failureListing_length (errors r)) as L. fold groups in L.
  repeat split; lia.
Qed.

(** X4.  The lines listed for one group.  There are never more than five.
    A group of at most three failures is listed in full, one line for each
    after the header.  Of a larger group the first three recorded are
    listed, and the last line gives the number of the others. *)
Theorem groupLines_truncation :
  forall (t : string) (group : list ErrorRecord),
    List.length (groupLines t group) <= 5
    /\ (List.length group <= 3 ->
        groupLines t group = headerLine t group :: map exampleLine group)
    /\ (3 < List.length group ->
        exists e1 e2 e3 others,
          group = e1 :: e2 :: e3 :: others
          /\ others <> []
          /\ groupLines t group
             = [ headerLine t group; exampleLine e1; exampleLine e2;
                 exampleLine e3;
                 log yellow ("    ... and " ++ show_nat (List.length others)
                                           ++ " more") ]).
Proof.
  intros t group. split; [|split].
  - rewrite groupLines_length.
    pose proof (Nat.le_min_l 3 (List.length group)).
    destruct (3 <? List.length group)%nat; lia.
  - intros H. unfold groupLines.
    rewrite firstn_all2 by exact H.
    destruct (Nat.ltb_spec 3 (List.length group)); [lia|].
    now rewrite app_nil_r.
  - intros H.
    destruct group as [|e1 [|e2 [|e3 [|e4 others]]]]; simpl in H; try lia.
    exists e1, e2, e3, (e4 :: others).
    split; [reflexivity|]. split; [discriminate|].
    unfold groupLines, moreLine. reflexivity.
Qed.

Lemma groupLines_truncation_witness :
  let e := {| iteration := 1; test := "Click button"; error := "boom" |} in
  3 < List.length [e; e; e; e; e]
  /\ exists e1 e2 e3 others,
      [e; e; e; e; e] = e1 :: e2 :: e3 :: others
      /\ others <> []
      /\ groupLines "Click button" [e; e; e; e; e]
         = [ headerLine "Click button" [e; e; e; e; e]; exampleLine e1;
             exampleLine e2; exampleLine e3;
             log yellow ("    ... and " ++ show_nat (List.length others)
                                       ++ " more") ].
Proof.
  intros e. split; [simpl; lia|].
  apply (proj2 (proj2 (groupLines_truncation "Click button" [e; e; e; e; e]))).
  simpl; lia.
Defined.

(** ** How a run ends *)

Lemma main_reported {W} (c : ChromeWs W) fixture args (w : W) t s :
  main c fixture args (initial w) = (t, s) ->
  match t with
  | Reported rate code =>
      rate = failRate (results s)
      /\ code = (if (0 <? failed (results s))%nat then 1%Z else 0%Z)
  | _ => True
  end.
Proof.
  unfold main. unfold call at 1. simpl.
  destruct (initializeSession c w) as [[e|tab] w1]; simpl;
    [intros H; injection H as <- <-; exact I|].
  match goal with
  | |- context [bind ?m ?k ?st] => destruct (bind m k st) as [[e|u] s2]
  end; [intros H; injection H as <- <-; exact I|].
  match goal with
  | |- context [runIterations c ?l ?t ?u ?n ?st] =>
      destruct (runIterations c l t u n st) as [[e|u'] s3]
  end; intros H; injection H as <- <-; [exact I | split; reflexivity].
Qed.

(** X5.  The exit code of a run of [main] is 0 or 1, and it is 0 exactly
    when the run reached the report with no failure counted; then no error
    record was kept either. *)
Theorem exit_code_zero_iff_clean :
  forall (W : Type) (c : ChromeWs W) (fixture : string) (args : list string)
         (w : W),
    let '(t, s) := main c fixture args (initial w) in
    (exitCode t = 0%Z \/ exitCode t = 1%Z)
    /\ (exitCode t = 0%Z
        <-> (exists rate code, t = Reported rate code)
            /\ failed (results s) = 0)
    /\ (exitCode t = 0%Z -> errors (results s) = []).
Proof.
  intros W c fixture args w.
  pose proof (main_errors_length c fixture args w) as L.
  destruct (main c fixture args (initial w)) as [t s] eqn:E. simpl in L.
  pose proof (main_reported c fixture args w t s E) as R.
  destruct t as [e|e|e|rate code]; simpl.
  1-3: split; [auto|]; split; [|discriminate];
       split; [discriminate | intros [(r & k & H) _]; discriminate].
  destruct R as [_ ->].
  destruct (Nat.ltb_spec 0 (failed (results s))) as [Hf|Hf].
  - split; [auto|]. split; [|discriminate].
    split; [discriminate | intros [_ H]; lia].
  - split; [auto|]. split.
    + split; [|reflexivity]. intros _. split; [eauto | lia].
    + intros _. destruct (errors (results s)); [reflexivity | simpl in L; lia].
Qed.

(** X6.  A run ends at the connection failure exactly when
    [initializeSession] throws, and then that call is the only one made; it
    ends at the page-load failure exactly when the session was obtained and
    the navigation to the test URL throws, and then these two calls are the
    only ones made.  In both cases nothing was recorded and the exit code
    is 1. *)
Theorem setup_failures :
  forall (W : Type) (c : ChromeWs W) (fixture : string) (args : list string)
         (w : W),
    let '(t, s) := main c fixture args (initial w) in
    (forall e, t = ConnectFailed e <-> fst (initializeSession c w) = inl e)
    /\ (forall e,
          t = LoadFailed e
          <-> exists tab w1,
                initializeSession c w = (inr tab, w1)
                /\ fst (navigate c tab (testUrlOf fixture args) w1) = inl e)
    /\ (forall e, t = ConnectFailed e ->
                  results s = results0 /\ calls s = [CInitializeSession]
                  /\ exitCode t = 1%Z)
    /\ (forall e, t = LoadFailed e ->
                  results s = results0
                  /\ exitCode t = 1%Z
                  /\ exists tab,
                      calls s = [CInitializeSession;
                                 CNavigate tab (testUrlOf fixture args)]).
Proof.
  intros W c fixture args w. unfold main. unfold call at 1. simpl.
  destruct (initializeSession c w) as [[e0|tab] w1] eqn:Hinit; simpl.
  { repeat split; try discriminate.
    - intros H; injection H as <-; reflexivity.
    - intros H; injection H as <-; reflexivity.
    - intros (tab & w' & H & _); discriminate. }
  unfold bind at 1. unfold call at 1. simpl.
  destruct (navigate c tab (testUrlOf fixture args) w1) as [[e0|u] w2] eqn:Hnav;
    simpl.
  { repeat split; try discriminate.
    - intros H; injection H as <-. exists tab, w1. rewrite Hnav. auto.
    - intros (tab' & w' & H & H'). injection H as <- <-.
      rewrite Hnav in H'. simpl in H'. now injection H' as <-.
    - eauto. }
  match goal with
  | |- context [runIterations c ?l ?t ?u ?n ?st] =>
      destruct (runIterations c l t u n st) as [[e|u'] s3]
  end; repeat split; try discriminate;
    intros (tab' & w' & H & H'); injection H as <- <-;
    rewrite Hnav in H'; discriminate.
Qed.

(** ** Counting the outcomes of a run *)

Section CountFacts.

Context {W : Type} (c : ChromeWs W).

Lemma fixed_pass_count tab url i (s : State W) v w :
  eval c tab clearScript (browser s) = (inr v, w) ->
  exists s',
    iterationBody c false tab url i s = (inr tt, s')
    /\ passed (results s') + failed (results s')
       = passed (results s) + failed (results s) + 9.
Proof.
  intros H. unfold iterationBody. unfold bind at 1. unfold bind at 1.
  unfold clearTestPage; run_monad. rewrite H. simpl.
  match goal with
  | |- context [runIteration c tab i ?st] =>
      destruct (runIteration_spec c tab i st) as (rs & s' & R & _ & Hl & Hr)
  end.
  rewrite R. simpl. eexists; split; [reflexivity|]. simpl.
  simpl in Hr. rewrite Hr, fold_recordLive_recordAll.
  destruct (recordAll_counts (map (fun x => (i, x)) rs) (results s)) as (H1 & _).
  cbv zeta in H1. rewrite H1, length_map, Hl. reflexivity.
Qed.

Lemma live_pass_count tab url i (s : State W) :
  exists s',
    iterationBody c true tab url i s = (inr tt, s')
    /\ passed (results s) + failed (results s) + 1
       <= passed (results s') + failed (results s')
       <= passed (results s) + failed (results s) + 4.
Proof.
  destruct (navigate c tab (replaceLastSegment url ++ "/settings") (browser s))
    as [[e|u] w] eqn:H.
  - destruct (live_pass_navigation_fails c tab url i s e w H)
      as (s1 & s' & _ & E & _ & Hp & Hf & _).
    exists s'. split; [exact E|]. lia.
  - destruct (live_pass_navigation_succeeds c tab url i s u w H)
      as (o2 & o3 & o4 & s1 & s' & _ & E & _ & Hc).
    exists s'. split; [exact E|]. lia.
Qed.

End CountFacts.

(** X7.  When the clearing script never throws, N fixed-page passes return
    normally and record exactly 9 * N outcomes, whether the steps succeed
    or fail. *)
Theorem fixed_page_count_whatever_the_outcomes :
  forall (W : Type) (c : ChromeWs W),
    (forall tab w, exists v, fst (eval c tab clearScript w) = inr v) ->
    forall tab url (N : nat) (s : State W),
    exists s',
      runIterations c false tab url (Z.of_nat N) s = (inr tt, s')
      /\ passed (results s') + failed (results s')
         = passed (results s) + failed (results s) + 9 * N.
Proof.
  intros W c Hclear tab url N s. unfold runIterations. rewrite Nat2Z.id.
  assert (G : forall n i (s : State W),
             exists s',
               iterate c false tab url n i s = (inr tt, s')
               /\ passed (results s') + failed (results s')
                  = passed (results s) + failed (results s) + 9 * n);
    [|apply G].
  clear N s. intros N.
  induction N as [|N IH]; intros i s; cbn [iterate].
  - exists s. split; [reflexivity | lia].
  - destruct (Hclear tab (browser s)) as (v & Hv).
    destruct (eval c tab clearScript (browser s)) as [r w] eqn:E.
    simpl in Hv. subst r.
    destruct (fixed_pass_count c tab url i s v w E) as (s1 & R & H1).
    unfold bind. rewrite R.
    destruct (IH (S i) s1) as (s' & R' & H').
    exists s'. split; [exact R' | lia].
Qed.

(** Three passes in which every click throws. *)
Lemma fixed_page_count_whatever_the_outcomes_witness :
  (forall tab w, exists v, fst (eval clicksFail tab clearScript w) = inr v)
  /\ exists s',
      runIterations clicksFail false 0 "file:///repo/test-react-inputs.html"
        (Z.of_nat 3) (initial 0) = (inr tt, s')
      /\ passed (results s') + failed (results s') = 0 + 0 + 9 * 3.
Proof.
  assert (H : forall tab w, exists v, fst (eval clicksFail tab clearScript w) = inr v)
    by (intros; eexists; reflexivity).
  split; [exact H|].
  exact (fixed_page_count_whatever_the_outcomes nat clicksFail H
           0 "file:///repo/test-react-inputs.html" 3 (initial 0)).
Defined.

(** X8.  N live-application passes always return normally, whatever the
    client does, and record at least N and at most 4 * N outcomes. *)
Theorem live_run_outcome_bounds :
  forall (W : Type) (c : ChromeWs W) tab url (N : nat) (s : State W),
  exists s',
    runIterations c true tab url (Z.of_nat N) s = (inr tt, s')
    /\ passed (results s) + failed (results s) + N
       <= passed (results s') + failed (results s')
       <= passed (results s) + failed (results s) + 4 * N.
Proof.
  intros W c tab url N s. unfold runIterations. rewrite Nat2Z.id.
  assert (G : forall n i (s : State W),
             exists s',
               iterate c true tab url n i s = (inr tt, s')
               /\ passed (results s) + failed (results s) + n
                  <= passed (results s') + failed (results s')
                  <= passed (results s) + failed (results s) + 4 * n);
    [|apply G].
  clear N s. intros N.
  induction N as [|N IH]; intros i s; cbn [iterate].
  - exists s. split; [reflexivity | lia].
  - destruct (live_pass_count c tab url i s) as (s1 & R & H1).
    unfold bind. rewrite R.
    destruct (IH (S i) s1) as (s' & R' & H').
    exists s'. split; [exact R' | lia].
Qed.

(** ** What the test steps ask of the client *)

Lemma length_append (a b : string) :
  String.length (a ++ b) = String.length a + String.length b.
Proof. induction a as [|x a IH]; simpl; [reflexivity | now rewrite IH]. Qed.

(** X9.  The click step, the XPath click step and the type-and-enter step
    each make exactly one client call, leave [results] alone, succeed
    exactly when that call returns, and otherwise fail with the message of
    the exception.  The type-and-enter step sends the text followed by two
    more characters, a backslash and the letter n. *)
Theorem single_call_steps :
  forall (W : Type) (c : ChromeWs W) (tab : TabIndex) (sel text : string)
         (s : State W),
    (exists s',
        testClick c tab sel s
        = (inr match fst (click c tab sel (browser s)) with
               | inr _ => Success None
               | inl e => Failure (message e)
               end, s')
        /\ calls s' = (calls s ++ [CClick tab sel])%list
        /\ results s' = results s)
    /\ (exists s',
          testXPathClick c tab sel s
          = (inr match fst (click c tab sel (browser s)) with
                 | inr _ => Success None
                 | inl e => Failure (message e)
                 end, s')
          /\ calls s' = (calls s ++ [CClick tab sel])%list
          /\ results s' = results s)
    /\ (exists sent s',
          testTypeAndEnter c tab sel text s
          = (inr match fst (fill c tab sent sel (browser s)) with
                 | inr _ => Success None
                 | inl e => Failure (message e)
                 end, s')
          /\ calls s' = (calls s ++ [CFill tab sent sel])%list
          /\ results s' = results s
          /\ sent = text ++ String (ascii_of_nat 92) (String "n"%char EmptyString)
          /\ String.length sent = String.length text + 2).
Proof.
  intros W c tab sel text s. split; [|split].
  - unfold testClick; run_monad. next_call c; eexists; repeat split.
  - unfold testXPathClick; run_monad. next_call c; eexists; repeat split.
  - exists (text ++ "\n"). unfold testTypeAndEnter; run_monad.
    next_call c; eexists; (split; [reflexivity|]);
      (split; [reflexivity|]); (split; [reflexivity|]);
      (split; [reflexivity|]); rewrite length_append; reflexivity.
Qed.

(** X10.  The type-and-verify step fills first and reads back second.
    When the fill throws, the read-back is not attempted: the fill is the
    only client call and the failure carries the fill's message.  When the
    fill returns, exactly two calls are made, the fill and the evaluation
    of the read-back script of the same selector; an empty value read back
    gives the failure message [Value not set. Expected text, got: ]
    followed by two double quotes.  [results] is left alone. *)
Theorem testType_calls :
  forall (W : Type) (c : ChromeWs W) (tab : TabIndex) (sel text : string)
         (s : State W),
    (forall e w,
        fill c tab text sel (browser s) = (inl e, w) ->
        testType c tab sel text s
        = (inr (Failure (message e)),
           {| browser := w; results := results s;
              calls := (calls s ++ [CFill tab text sel])%list |}))
    /\ (forall u w,
          fill c tab text sel (browser s) = (inr u, w) ->
          exists o s',
            testType c tab sel text s = (inr o, s')
            /\ calls s' = (calls s ++ [CFill tab text sel;
                                       CEval tab (readBackScript sel)])%list
            /\ results s' = results s
            /\ (fst (eval c tab (readBackScript sel) (elapse c 50 w))
                = inr (VString EmptyString) ->
                o = Failure ("Value not set. Expected text, got: "
                               ++ dquote ++ dquote))).
Proof.
  intros W c tab sel text s. split.
  - intros e w H. unfold testType; run_monad. rewrite H. reflexivity.
  - intros u w H. unfold testType; run_monad. rewrite H. simpl.
    destruct (eval c tab (readBackScript sel) (elapse c 50 w)) as [[e|v] w'];
      simpl.
    + do 2 eexists. split; [reflexivity|]. simpl.
      rewrite <- app_assoc. repeat split. discriminate.
    + destruct (isSet v) eqn:Hv; do 2 eexists; (split; [reflexivity|]); simpl;
        rewrite <- app_assoc; repeat split.
      * intros Hempty. injection Hempty as ->. discriminate.
      * intros Hempty. injection Hempty as ->. reflexivity.
Qed.

Lemma testType_calls_witness :
  fill clicksFail 0 "abc" "#validated-input" (browser (initial 0)) = (inr tt, 1)
  /\ exists o s',
      testType clicksFail 0 "#validated-input" "abc" (initial 0) = (inr o, s')
      /\ calls s' = [CFill 0 "abc" "#validated-input";
                     CEval 0 (readBackScript "#validated-input")]
      /\ results s' = results0
      /\ (fst (eval clicksFail 0 (readBackScript "#validated-input")
                 (elapse clicksFail 50 1)) = inr (VString EmptyString) ->
          o = Failure ("Value not set. Expected text, got: "
                         ++ dquote ++ dquote)).
Proof.
  split; [reflexivity|].
  exact (proj2 (testType_calls nat clicksFail 0 "#validated-input" "abc" (initial 0))
           tt 1 eq_refl).
Defined.

(** ** Reading the iteration count *)

Lemma readDigits_decimal (d : Decimal.uint) (a : nat) :
  readDigits 10 (NilEmpty.string_of_uint d) (Some (Z.of_nat a))
  = Some (Z.of_nat (Nat.of_uint_acc d a)).
Proof.
  revert a; induction d; intros a; simpl; [reflexivity| ..];
    rewrite <- IHd; do 2 f_equal; rewrite Nat.tail_mul_spec; lia.
Qed.

Lemma readDigits_decimal_start (d : Decimal.uint) :
  d <> Decimal.Nil ->
  readDigits 10 (NilEmpty.string_of_uint d) None
  = Some (Z.of_nat (Nat.of_uint d)).
Proof.
  intros H. unfold Nat.of_uint.
  destruct d; [now elim H| ..]; simpl;
    match goal with
    | |- readDigits _ _ (Some ?z) = _ =>
        change z with (Z.of_nat (Z.to_nat z))
    end; rewrite readDigits_decimal; reflexivity.
Qed.

Lemma parseInt_decimal (d : Decimal.uint) :
  d <> Decimal.Nil ->
  parseInt (NilEmpty.string_of_uint d)
  = option_map roundToNumber (readDigits 10 (NilEmpty.string_of_uint d) None).
Proof.
  intros H. unfold parseInt.
  assert (one : forall x,
             option_map (fun mathInt => roundToNumber (1 * mathInt)) x
             = option_map roundToNumber x)
    by (intros [z|]; simpl; [destruct z|]; reflexivity).
  destruct d as [|d|d|d|d|d|d|d|d|d|d]; [now elim H| ..];
    try (simpl NilEmpty.string_of_uint;
         cbv -[readDigits Z.mul NilEmpty.string_of_uint option_map roundToNumber];
         apply one).
  destruct d; simpl NilEmpty.string_of_uint;
    cbv -[readDigits Z.mul NilEmpty.string_of_uint option_map roundToNumber];
    apply one.
Qed.

Lemma iter_xO_value (k p : positive) :
  Zpos (Pos.iter xO p k) = (Zpos p * 2 ^ Zpos k)%Z.
Proof.
  induction k as [|k IH] using Pos.peano_ind.
  - simpl. lia.
  - rewrite Pos.iter_succ, Pos2Z.inj_xO, IH, Pos2Z.inj_succ, Z.pow_succ_r by lia.
    lia.
Qed.

(** The Number of a positive count below 2^53 holds exactly that count. *)
Lemma ofNat_value n :
  0 < n -> (Z.of_nat n < 2 ^ 53)%Z ->
  exists m e,
    ofNat n = S754_finite false m e /\ Z.shiftl (Zpos m) e = Z.of_nat n.
Proof.
  intros Hpos Hlt. unfold ofNat.
  destruct (Z.of_nat n) as [|p|p] eqn:E; try lia.
  pose proof (digits2_pos_bound p Hlt) as Hd.
  assert (0 < Zpos (digits2_pos p))%Z as Hd0 by lia.
  unfold binary_normalize, binary_round, shl_align.
  rewrite fexp_small by lia.
  destruct (Zpos (digits2_pos p) + 0 - 53 - 0)%Z as [|d|d] eqn:Ed; try lia.
  - do 2 eexists. split.
    + apply binary_round_aux_canonical; [|lia].
      rewrite fexp_small by lia. lia.
    + reflexivity.
  - do 2 eexists. split.
    + apply binary_round_aux_canonical; [|lia].
      rewrite digits2_pos_iter_xO, fexp_small by lia. lia.
    + replace (Zpos (digits2_pos p) + 0 - 53)%Z with (- Zpos d)%Z by lia.
      rewrite Z.shiftl_opp_r, Z.shiftr_div_pow2, iter_xO_value by lia.
      apply Z.div_mul. lia.
Qed.

Lemma roundToNumber_exact n :
  (Z.of_nat n < 2 ^ 53)%Z -> roundToNumber (Z.of_nat n) = Z.of_nat n.
Proof.
  intros H. destruct n as [|n]; [reflexivity|].
  destruct (ofNat_value (S n)) as (m & e & E & V); [lia | exact H |].
  unfold roundToNumber. unfold ofNat in E. rewrite E. exact V.
Qed.

Lemma parseInt_show_nat (n : nat) :
  (Z.of_nat n < 2 ^ 53)%Z -> parseInt (show_nat n) = Some (Z.of_nat n).
Proof.
  intros H. unfold show_nat. rewrite parseInt_decimal.
  - rewrite readDigits_decimal_start, Unsigned.of_to.
    + simpl. now rewrite roundToNumber_exact.
    + intros C. assert (n = 0) as -> by (now rewrite <- (Unsigned.of_to n), C).
      discriminate C.
  - intros C. assert (n = 0) as -> by (now rewrite <- (Unsigned.of_to n), C).
    discriminate C.
Qed.

(** X11.  A first argument made of the decimal digits of a positive integer
    N below 2^53 requests exactly N iterations, whatever arguments follow;
    the digits of 0 request the default 50.  Beyond 2^53 the reading is
    rounded to the nearest binary64: the digits of 2^53 + 1 request 2^53
    iterations. *)
Theorem iterations_from_decimal_argument :
  forall (n : nat) (rest : list string),
    (0 < n -> (Z.of_nat n < 2 ^ 53)%Z ->
     iterationsOf (show_nat n :: rest) = Z.of_nat n
     /\ Z.to_nat (iterationsOf (show_nat n :: rest)) = n)
    /\ iterationsOf (show_nat 0 :: rest) = 50%Z
    /\ iterationsOf ("9007199254740993" :: rest) = 9007199254740992%Z.
Proof.
  intros n rest. split; [|split; [reflexivity | vm_compute; reflexivity]].
  intros Hn Hb. unfold iterationsOf. simpl nth_error. unfold toString.
  rewrite parseInt_show_nat by exact Hb.
  destruct n; [lia|]. simpl num_or. split; [reflexivity | lia].
Qed.

Lemma iterations_from_decimal_argument_witness :
  0 < 120
  /\ (Z.of_nat 120 < 2 ^ 53)%Z
  /\ iterationsOf (show_nat 120 :: ["http://localhost:8080/settings"]) = Z.of_nat 120
  /\ Z.to_nat (iterationsOf (show_nat 120 :: ["http://localhost:8080/settings"])) = 120.
Proof.
  split; [lia|]. split; [reflexivity|].
  apply (proj1 (iterations_from_decimal_argument 120
                  ["http://localhost:8080/settings"])).
  - lia.
  - reflexivity.
Defined.

(** ** The client calls of a run *)

Section LogFacts.

Context {W : Type} (c : ChromeWs W) (P : Call -> bool).

Lemma extends_refl (s : State W) : extends P s s.
Proof. exists []. now rewrite app_nil_r. Qed.

Lemma extends_trans (s1 s2 s3 : State W) :
  extends P s1 s2 -> extends P s2 s3 -> extends P s1 s3.
Proof.
  intros (n1 & E1 & F1) (n2 & E2 & F2). exists (n1 ++ n2)%list.
  rewrite E2, E1, app_assoc, forallb_app, F1, F2. auto.
Qed.

Lemma logsOnly_ret {A} (a : A) : logsOnly P (@ret W A a).
Proof. intros s. apply extends_refl. Qed.

Lemma logsOnly_bind {A B} (m : M W A) (k : A -> M W B) :
  logsOnly P m -> (forall a, logsOnly P (k a)) -> logsOnly P (bind m k).
Proof.
  intros Hm Hk s. unfold bind. specialize (Hm s).
  destruct (m s) as [[e|a] s1]; simpl in *; [exact Hm|].
  eapply extends_trans; [exact Hm | apply Hk].
Qed.

Lemma logsOnly_try_catch {A} (m : M W A) (h : Error -> M W A) :
  logsOnly P m -> (forall e, logsOnly P (h e)) -> logsOnly P (try_catch m h).
Proof.
  intros Hm Hh s. unfold try_catch. specialize (Hm s).
  destruct (m s) as [[e|a] s1]; simpl in *; [|exact Hm].
  eapply extends_trans; [exact Hm | apply Hh].
Qed.

Lemma logsOnly_call {A} (x : Call) (f : W -> (Error + A) * W) :
  P x = true -> logsOnly P (call W x f).
Proof.
  intros Hx s. unfold call. destruct (f (browser s)) as [r w]. simpl.
  exists [x]. simpl. now rewrite Hx.
Qed.

Lemma extends_same_calls (s s' : State W) :
  calls s' = calls s -> extends P s s'.
Proof. intros H. exists []. now rewrite app_nil_r. Qed.

Lemma logsOnly_sleep ms : logsOnly P (sleep c ms).
Proof. intros s. now apply extends_same_calls. Qed.

Lemma logsOnly_modify f : logsOnly P (modify_results W f).
Proof. intros s. now apply extends_same_calls. Qed.

Lemma logsOnly_forEachResult i rs : logsOnly P (@forEachResult W i rs).
Proof.
  intros s. rewrite forEachResult_spec. now apply extends_same_calls.
Qed.

End LogFacts.

Ltac logs_only :=
  repeat match goal with
    | |- logsOnly _ (bind _ _) => apply logsOnly_bind; [|intros ?]
    | |- logsOnly _ (try_catch _ _) => apply logsOnly_try_catch; [|intros ?]
    | |- logsOnly _ (ret _) => apply logsOnly_ret
    | |- logsOnly _ (sleep _ _) => apply logsOnly_sleep
    | |- logsOnly _ (modify_results _ _) => apply logsOnly_modify
    | |- logsOnly _ (forEachResult _ _) => apply logsOnly_forEachResult
    | |- logsOnly _ (call _ _ _) =>
        apply logsOnly_call; simpl; rewrite ?Nat.eqb_refl; reflexivity
    end.

Section PhaseFacts.

Context {W : Type} (c : ChromeWs W) (tab : TabIndex).

Lemma logsOnly_run a : logsOnly (phaseCall false tab) (run c tab a).
Proof.
  destruct a; simpl; [unfold testClick | unfold testType]; logs_only.
  destruct (isSet _); logs_only.
Qed.

Lemma logsOnly_forEachTest i ts acc :
  logsOnly (phaseCall false tab) (forEachTest c tab i ts acc).
Proof.
  revert acc; induction ts as [|t ts IH]; intros acc; simpl; logs_only.
  - apply logsOnly_run.
  - apply IH.
Qed.

Lemma logsOnly_runLiveAppTests base i :
  logsOnly (phaseCall true tab) (runLiveAppTests c tab base i).
Proof.
  unfold runLiveAppTests. logs_only.
  destruct a as [rs|rs]; unfold liveStep; logs_only.
Qed.

Lemma logsOnly_iterationBody live url i :
  logsOnly (phaseCall live tab) (iterationBody c live tab url i).
Proof.
  unfold iterationBody. destruct live; logs_only.
  - apply logsOnly_runLiveAppTests.
  - unfold clearTestPage. logs_only.
  - apply logsOnly_forEachTest.
Qed.

Lemma logsOnly_iterate live url n i :
  logsOnly (phaseCall live tab) (iterate c live tab url n i).
Proof.
  revert i; induction n as [|n IH]; intros i; simpl; logs_only.
  - apply logsOnly_iterationBody.
  - apply IH.
Qed.

End PhaseFacts.

(** X12.  The client calls of a run of [main], in order: the session is
    initialised first and once; when that succeeds the test URL is loaded
    next, on the tab handle obtained; every later call is a click, a fill,
    a navigation or a script evaluation on that same handle.  A fixed-page
    run never navigates again after the load, and a live-application run
    never evaluates a script.  When the session or the load fails no
    further call is made. *)
Theorem call_log_discipline :
  forall (W : Type) (c : ChromeWs W) (fixture : string) (args : list string)
         (w : W),
    let '(t, s) := main c fixture args (initial w) in
    match initializeSession c w with
    | (inl _, _) => calls s = [CInitializeSession]
    | (inr tab, w1) =>
        exists phase,
          calls s = CInitializeSession
                      :: CNavigate tab (testUrlOf fixture args) :: phase
          /\ forallb (phaseCall (isLiveAppOf (testUrlOf fixture args)) tab) phase
             = true
          /\ (forall e, fst (navigate c tab (testUrlOf fixture args) w1) = inl e ->
                        phase = [])
    end.
Proof.
  intros W c fixture args w. unfold main. unfold call at 1. simpl.
  destruct (initializeSession c w) as [[e0|tab] w1]; simpl; [reflexivity|].
  unfold bind at 1. unfold call at 1. simpl.
  destruct (navigate c tab (testUrlOf fixture args) w1) as [[e0|u] w2]; simpl.
  { exists []. repeat split. }
  unfold runIterations.
  match goal with
  | |- context [iterate c ?l ?t ?u ?n ?i ?st] =>
      destruct (logsOnly_iterate c t l u n i st) as (phase & E & F);
      destruct (iterate c l t u n i st) as [[e1|u1] s3]
  end; simpl in *; exists phase; (split; [exact E|]);
    (split; [exact F | discriminate]).
Qed.

(** ** The base URL, for every target *)

Lemma replaceLastSegment_decompose (s : string) :
  (noSlash s = true /\ replaceLastSegment s = s)
  \/ (exists seg, noSlash seg = true /\ s = replaceLastSegment s ++ "/" ++ seg).
Proof.
  induction s as [|a r IH]; simpl; [left; split; reflexivity|].
  destruct (isSlash a) eqn:Ha; simpl.
  - destruct (noSlash r) eqn:Hr.
    + right. exists r. split; [exact Hr|].
      unfold isSlash in Ha. apply Ascii.eqb_eq in Ha. now subst a.
    + destruct IH as [[C _]|(seg & Hs & E)]; [discriminate|].
      right. exists seg. split; [exact Hs|]. simpl. f_equal. exact E.
  - destruct IH as [[Hr E]|(seg & Hs & E)].
    + left. rewrite Hr, E. split; reflexivity.
    + right. exists seg. split; [exact Hs|]. simpl. f_equal. exact E.
Qed.

Lemma prefix_split (p s : string) :
  String.prefix p s = true -> exists r, s = p ++ r.
Proof.
  revert s; induction p as [|a p IH]; intros s H.
  - exists s. reflexivity.
  - destruct s as [|b s]; simpl in H; [discriminate H|].
    destruct (ascii_dec a b) as [<-|]; [|discriminate H].
    destruct (IH s H) as (r & ->). exists r. reflexivity.
Qed.

(** X13.  The replacement of line 252 either leaves the URL as it is, when
    the URL holds no '/', or removes exactly its last '/' and the slash-free
    text after it.  For every URL that selects the live-application
    strategy the second case applies: the base URL is strictly shorter than
    the target and still starts with [http:/]. *)
Theorem base_url_of_any_target :
  forall url : string,
    ((noSlash url = true /\ replaceLastSegment url = url)
     \/ (exists seg,
           noSlash seg = true /\ url = replaceLastSegment url ++ "/" ++ seg))
    /\ (isLiveAppOf url = true ->
        (exists seg,
            noSlash seg = true /\ url = replaceLastSegment url ++ "/" ++ seg)
        /\ startsWith (replaceLastSegment url) "http:/" = true
        /\ String.length (replaceLastSegment url) < String.length url).
Proof.
  intros url. split; [apply replaceLastSegment_decompose|].
  intros H. unfold isLiveAppOf, startsWith in H.
  apply prefix_split in H as (r & ->).
  destruct (replaceLastSegment_decompose ("http://localhost" ++ r))
    as [[C _]|(seg & Hs & E)]; [discriminate C|].
  split; [eauto|]. split.
  { unfold startsWith. simpl. destruct (noSlash r); reflexivity. }
  rewrite E at 2. rewrite length_append. simpl. lia.
Qed.

Lemma base_url_of_any_target_witness :
  isLiveAppOf "http://localhost:8080/" = true
  /\ (exists seg,
         noSlash seg = true
         /\ "http://localhost:8080/"
            = replaceLastSegment "http://localhost:8080/" ++ "/" ++ seg)
  /\ startsWith (replaceLastSegment "http://localhost:8080/") "http:/" = true
  /\ String.length (replaceLastSegment "http://localhost:8080/")
     < String.length "http://localhost:8080/".
Proof.
  split; [reflexivity|].
  exact (proj2 (base_url_of_any_target "http://localhost:8080/") eq_refl).
Defined.

(** ** The default target *)

Lemma fixed_phase_never_navigates tab (l : list Call) :
  forallb (phaseCall false tab) l = true -> filter isNavigate l = [].
Proof.
  induction l as [|x l IH]; simpl; [reflexivity|].
  intros H. apply andb_true_iff in H as [Hx Hl].
  destruct x; simpl in *; try (apply IH; exact Hl).
  rewrite andb_false_r in Hx. discriminate.
Qed.

(** X14.  Without a URL argument (or with an empty one) the target is the
    bundled page under [file://], wherever the harness is installed, and the
    fixed-page strategy is selected.  Such a run navigates at most once, to
    that page. *)
Theorem default_target_is_fixed_page :
  forall (W : Type) (c : ChromeWs W) (fixture : string) (args : list string)
         (w : W),
    nth_error args 1 = None \/ nth_error args 1 = Some EmptyString ->
    testUrlOf fixture args = "file://" ++ fixture
    /\ isLiveAppOf (testUrlOf fixture args) = false
    /\ (let '(t, s) := main c fixture args (initial w) in
        filter isNavigate (calls s) = []
        \/ exists tab,
            filter isNavigate (calls s) = [CNavigate tab ("file://" ++ fixture)]).
Proof.
  intros W c fixture args w H.
  assert (U : testUrlOf fixture args = "file://" ++ fixture)
    by (unfold testUrlOf; destruct H as [-> | ->]; reflexivity).
  assert (L : isLiveAppOf (testUrlOf fixture args) = false)
    by (rewrite U; reflexivity).
  split; [exact U|]. split; [exact L|].
  unfold main. rewrite L. unfold call at 1. simpl.
  destruct (initializeSession c w) as [[e0|tab] w1]; simpl; [left; reflexivity|].
  unfold bind at 1. unfold call at 1. simpl.
  destruct (navigate c tab (testUrlOf fixture args) w1) as [[e0|u] w2]; simpl.
  { right. exists tab. now rewrite U. }
  unfold runIterations.
  match goal with
  | |- context [iterate c ?l ?t ?u ?n ?i ?st] =>
      destruct (logsOnly_iterate c t l u n i st) as (phase & E & F);
      destruct (iterate c l t u n i st) as [[e1|u1] s3]
  end; simpl in *; right; exists tab; rewrite E; simpl;
    rewrite (fixed_phase_never_navigates tab phase F), U; reflexivity.
Qed.

Lemma default_target_is_fixed_page_witness :
  (nth_error ["3"] 1 = None \/ nth_error ["3"] 1 = Some EmptyString)
  /\ testUrlOf "/repo/test-react-inputs.html" ["3"]
     = "file://" ++ "/repo/test-react-inputs.html"
  /\ isLiveAppOf (testUrlOf "/repo/test-react-inputs.html" ["3"]) = false
  /\ (let '(t, s) := main clicksFail "/repo/test-react-inputs.html" ["3"]
                          (initial 0) in
      filter isNavigate (calls s) = []
      \/ exists tab,
          filter isNavigate (calls s)
          = [CNavigate tab ("file://" ++ "/repo/test-react-inputs.html")]).
Proof.
  split; [left; reflexivity|].
  exact (default_target_is_fixed_page nat clicksFail
           "/repo/test-react-inputs.html" ["3"] 0 (or_introl eq_refl)).
Defined.
